(** * Bureau Booths dashboard: cache, retrying fetch, loader, refresher, metrics

    A shallow embedding of the data-synchronisation core of [app.py]
    ([DataCache], [fetch_worksheet_with_retry], [load_sensor_data],
    [calculate_comfort_score], [create_dummy_data], the refresh sweep of
    [background_cache_refresh], and the utilisation computations of the
    [dashboard] and [location_view] routes), with the properties of its
    specification stated and settled against it.

    Conventions.
    - Python floats (clock readings, sensor values, scores) are rationals [Q];
      the "no value" of pandas (None / NaN / NaT) is [None].
    - The module-level mutable state ([data_cache], the clock, the logger, the
      remote API) is one [World] value threaded through a state-and-exception
      monad [M]; the lock of [DataCache] guards single operations and has no
      counterpart in this sequential model.
    - Library code (pandas, numpy) is the record [Lib] with its documented
      contract [LibOk]. *)

From Stdlib Require Import Ascii QArith Qround Lqa Sorting.Sorted.
From stdpp Require Import gmap strings list sorting.

Local Open Scope Z_scope.

(** ** Python values *)

(** The values a Google-Sheets cell or a CSV cell can hold once loaded:
    [gspread] yields str / int / float, [pandas.read_csv] additionally NaN for
    a blank cell. *)
Inductive PyVal :=
  | PStr (s : string)
  | PInt (z : Z)
  | PFloat (q : Q)
  | PNaN.

(** A row of [worksheet.get_all_records()]: a dict from header to cell. *)
Abbreviation RawRow := (gmap string PyVal).

(** [pd.notna] on a cell that may be missing. *)
Definition notna (v : option PyVal) : bool :=
  match v with
  | None | Some PNaN => false
  | Some _ => true
  end.

(** ** Rationals as floats: boolean comparisons *)

Definition Qltb (x y : Q) : bool := negb (Qle_bool y x).
Definition Qleb (x y : Q) : bool := Qle_bool x y.

(** ** Normalised data *)

(** One row of the cleaned DataFrame: the eleven [required_cols].  Columns of
    the sheet outside [required_cols] pass through [load_sensor_data]
    untouched and are read by nothing modelled here. *)
Record Reading := {
  timestamp : option Z;          (* datetime64[ns]; None is NaT *)
  temp_c : option Q;
  humidity_pct : option Q;
  co2_ppm : option Q;
  pir_state : option PyVal;      (* left as loaded *)
  voc : option Q;
  pm25_ugm3 : option Q;
  ch2o_ppm : option Q;
  occupancy_count : option Q;
  light_lux : option Q;
  sound_dBA : option Q
}.

Abbreviation DataFrame := (list Reading).

(** ** The cache and the world *)

(** [{'data': df, 'timestamp': time}] *)
Record CacheEntry := {
  entry_data : DataFrame;
  entry_timestamp : Q
}.

(** What the remote spreadsheet answers to one attempt, i.e. to
    [spreadsheet.worksheet(name)] followed by [get_all_records()]. *)
Inductive Response :=
  | Records (data : list RawRow)
  | WorksheetNotFound
  | ApiError.

(** The connected spreadsheet: its answer depends on the worksheet name and on
    how many requests were made before. *)
Abbreviation Spreadsheet := (nat -> string -> Response).

Inductive LogEvent :=
  | WarnWorksheetNotFound (name : string)
  | WarnRetrying (name : string) (attempt max_retries : Z) (wait_time : Z)
  | ErrFailedAfter (name : string) (max_retries : Z)
  | ErrNoConnection
  | WarnCouldNotFetch (key : string)
  | InfoLoadedAndCached (key : string)
  | InfoRefreshing
  | InfoRefreshCompleted
  | ErrRefresh.

Inductive Exn :=
  | AttributeError.

Record World := {
  cache : gmap string CacheEntry;   (* data_cache.cache *)
  ttl : Q;                          (* data_cache.ttl *)
  now : Q;                          (* what time.time() returns *)
  requests : list string;           (* worksheets asked of the remote API, oldest first *)
  sleeps : list Q;                  (* arguments of time.sleep, oldest first *)
  logs : list LogEvent;             (* logger output, oldest first *)
  draws : nat;                      (* dummy frames generated so far *)
  loads : list (PyVal * PyVal)      (* ghost: calls of load_sensor_data, oldest first *)
}.

Definition set_cache (c : gmap string CacheEntry) (w : World) : World :=
  {| cache := c; ttl := ttl w; now := now w; requests := requests w;
     sleeps := sleeps w; logs := logs w; draws := draws w; loads := loads w |}.

(** ** The state-and-exception monad *)

Inductive Result (A : Type) :=
  | Ok (a : A)
  | Raise (e : Exn).
Arguments Ok {A} a.
Arguments Raise {A} e.

Definition M (A : Type) : Type := World -> Result A * World.

Definition ret {A} (a : A) : M A := fun w => (Ok a, w).

Definition bind {A B} (m : M A) (f : A -> M B) : M B :=
  fun w => match m w with
           | (Ok a, w') => f a w'
           | (Raise e, w') => (Raise e, w')
           end.

Definition raise {A} (e : Exn) : M A := fun w => (Raise e, w).

(** [try: body except Exception as e: handler] *)
Definition try_except {A} (body : M A) (handler : Exn -> M A) : M A :=
  fun w => match body w with
           | (Raise e, w') => handler e w'
           | r => r
           end.

Declare Scope py_scope.
Delimit Scope py_scope with py.
Notation "x <- m ;; k" := (bind m (fun x => k))
  (at level 100, m at next level, right associativity) : py_scope.
Notation "m ;;; k" := (bind m (fun _ => k))
  (at level 100, right associativity) : py_scope.
Local Open Scope py_scope.

Definition time_time : M Q := fun w => (Ok (now w), w).

Definition time_sleep (d : Q) : M unit := fun w =>
  (Ok tt,
   {| cache := cache w; ttl := ttl w; now := (now w + d)%Q; requests := requests w;
      sleeps := sleeps w ++ [d]; logs := logs w; draws := draws w; loads := loads w |}).

Definition logger (ev : LogEvent) : M unit := fun w =>
  (Ok tt,
   {| cache := cache w; ttl := ttl w; now := now w; requests := requests w;
      sleeps := sleeps w; logs := logs w ++ [ev]; draws := draws w; loads := loads w |}).

(** One attempt against the remote API. *)
Definition request (sheet : Spreadsheet) (name : string) : M Response := fun w =>
  (Ok (sheet (length (requests w)) name),
   {| cache := cache w; ttl := ttl w; now := now w; requests := requests w ++ [name];
      sleeps := sleeps w; logs := logs w; draws := draws w; loads := loads w |}).

(** ** DataCache *)

(** [DataCache.get] *)
Definition DataCache_get (key : string) : M (option DataFrame) := fun w =>
  match cache w !! key with
  | Some cached_item =>
      let age := (now w - entry_timestamp cached_item)%Q in
      if Qltb age (ttl w) then (Ok (Some (entry_data cached_item)), w)
      else (Ok None, set_cache (delete key (cache w)) w)
  | None => (Ok None, w)
  end.

(** [DataCache.set] *)
Definition DataCache_set (key : string) (df : DataFrame) : M unit := fun w =>
  (Ok tt,
   set_cache (<[key := {| entry_data := df; entry_timestamp := now w |}]> (cache w)) w).

(** [DataCache.is_expired] *)
Definition DataCache_is_expired (key : string) : M bool := fun w =>
  match cache w !! key with
  | None => (Ok true, w)
  | Some cached_item => (Ok (Qleb (ttl w) (now w - entry_timestamp cached_item)%Q), w)
  end.

(** [DataCache.clear] *)
Definition DataCache_clear : M unit := fun w => (Ok tt, set_cache ∅ w).

(** ** Library code: pandas and numpy *)

(** The library functions the code calls, with the randomness and the local
    wall clock that [create_dummy_data] reads. *)
Record Lib := {
  (* pd.to_numeric(errors='coerce') applied to a str cell *)
  str_to_numeric : string -> option Q;
  (* pd.to_datetime(column, errors='coerce'): the format is inferred from the
     column as a whole, so this is a function of the column *)
  to_datetime : list (option PyVal) -> list (option Z);
  (* ndarray.argsort(kind='quicksort'), the default kind of sort_values *)
  argsort : list Z -> list nat;
  (* datetime.now() as a naive local timestamp in ns, from the clock reading *)
  datetime_now : Q -> Z;
  (* np.random.normal(...)[i] for a column of the k-th dummy frame *)
  random_normal : nat -> string -> nat -> Q;
  (* np.random.choice(['Occupied', 'Vacant'], 24, p=[0.3, 0.7])[i] = 'Occupied' *)
  random_choice : nat -> nat -> bool;
  (* np.random.randint(0, 5, 24)[i] *)
  random_randint : nat -> nat -> Z
}.

(** The keys [ks] read through an indexer. *)
Definition take_keys (ks : list Z) (indexer : list nat) : list Z :=
  omap (fun i => ks !! i) indexer.

(** The documented contract: [to_datetime] keeps the length of the column;
    [argsort] returns a permutation of the positions along which the keys
    ascend.  Nothing is promised about the order of equal keys: pandas
    documents 'mergesort' and 'stable' as the only stable kinds. *)
Record LibOk (L : Lib) : Prop := {
  to_datetime_length : forall col, length (to_datetime L col) = length col;
  argsort_perm : forall ks, argsort L ks ≡ₚ seq 0 (length ks);
  argsort_sorted : forall ks, Sorted Z.le (take_keys ks (argsort L ks))
}.

(** ** Strings *)

(** [s.replace(' ', '')] *)
Fixpoint remove_spaces (s : string) : string :=
  match s with
  | EmptyString => EmptyString
  | String a s' => if Ascii.eqb a " "%char then remove_spaces s' else String a (remove_spaces s')
  end.

(** [str.isspace] on code points below 256. *)
Definition py_isspace (a : ascii) : bool :=
  let n := nat_of_ascii a in
  ((9 <=? n) && (n <=? 13) || (28 <=? n) && (n <=? 32) || (n =? 133) || (n =? 160))%nat.

Fixpoint lstrip (s : string) : string :=
  match s with
  | EmptyString => EmptyString
  | String a s' => if py_isspace a then lstrip s' else s
  end.

Definition rstrip (s : string) : string := String.rev (lstrip (String.rev s)).

(** [s.strip()] *)
Definition strip (s : string) : string := rstrip (lstrip s).

Definition py_islower (a : ascii) : bool :=
  let n := nat_of_ascii a in ((97 <=? n) && (n <=? 122))%nat.
Definition py_isupper (a : ascii) : bool :=
  let n := nat_of_ascii a in ((65 <=? n) && (n <=? 90))%nat.
Definition py_upper (a : ascii) : ascii :=
  if py_islower a then ascii_of_nat (nat_of_ascii a - 32) else a.
Definition py_lower (a : ascii) : ascii :=
  if py_isupper a then ascii_of_nat (nat_of_ascii a + 32) else a.

(** [s.title()] on ASCII: a cased letter is upper-cased when it follows an
    uncased character and lower-cased otherwise. *)
Fixpoint title_from (prev_cased : bool) (s : string) : string :=
  match s with
  | EmptyString => EmptyString
  | String a s' =>
      let cased := py_islower a || py_isupper a in
      String (if prev_cased then py_lower a else py_upper a) (title_from cased s')
  end.

Definition title (s : string) : string := title_from false s.

(** ** Cleaning a fetched worksheet *)

(** [pd.to_numeric(errors='coerce')] on one cell. *)
Definition to_numeric (L : Lib) (v : option PyVal) : option Q :=
  match v with
  | Some (PInt z) => Some (inject_Z z)
  | Some (PFloat q) => Some q
  | Some (PStr s) => str_to_numeric L s
  | Some PNaN | None => None
  end.

(** [pd.DataFrame(data).columns] for a list of dicts: every header met. *)
Definition columns (data : list RawRow) : gset string := ⋃ (dom <$> data).

(** [pd.DataFrame(data).empty]: no row or no column. *)
Definition DataFrame_empty (data : list RawRow) : bool :=
  bool_decide (length data = 0%nat) || bool_decide (columns data = ∅).

(** A row once every required column exists ([df[col] = None] for a missing
    one), the numeric columns went through [pd.to_numeric] and the timestamp
    column through [pd.to_datetime]; [ts] is this row's entry of the converted
    timestamp column. *)
Definition clean_row (L : Lib) (r : RawRow) (ts : option Z) : Reading :=
  {| timestamp := ts;
     temp_c := to_numeric L (r !! "temp_c");
     humidity_pct := to_numeric L (r !! "humidity_pct");
     co2_ppm := to_numeric L (r !! "co2_ppm");
     pir_state := r !! "pir_state";
     voc := to_numeric L (r !! "voc");
     pm25_ugm3 := to_numeric L (r !! "pm25_ugm3");
     ch2o_ppm := to_numeric L (r !! "ch2o_ppm");
     occupancy_count := to_numeric L (r !! "occupancy_count");
     light_lux := to_numeric L (r !! "light_lux");
     sound_dBA := to_numeric L (r !! "sound_dBA") |}.

Definition clean (L : Lib) (data : list RawRow) : DataFrame :=
  zip_with (clean_row L) data (to_datetime L ((fun r => r !! "timestamp") <$> data)).

Definition has_timestamp (r : Reading) : bool :=
  match timestamp r with Some _ => true | None => false end.

(** [df.sort_values(by='timestamp').reset_index(drop=True)].  pandas sorts one
    column through [nargsort] with the defaults [kind='quicksort'] and
    [na_position='last']: the rows with a timestamp are reordered by numpy's
    argsort of their keys, the NaT rows follow in their original order. *)
Definition sort_values_by_timestamp (L : Lib) (df : DataFrame) : DataFrame :=
  let non_nans := filter (fun r => has_timestamp r = true) df in
  let nans := filter (fun r => has_timestamp r = false) df in
  omap (fun i => non_nans !! i) (argsort L (omap timestamp non_nans)) ++ nans.

(** STEP 4 of [load_sensor_data] on a non-empty frame. *)
Definition normalize (L : Lib) (data : list RawRow) : DataFrame :=
  sort_values_by_timestamp L (clean L data).

(** ** Comfort score *)

Definition score_temp (temp : Q) : Z :=
  if Qleb 20 temp && Qleb temp 25 then 100
  else if Qleb 18 temp && Qltb temp 20 || Qltb 25 temp && Qleb temp 27 then 50
  else 0.

Definition score_hum (hum : Q) : Z :=
  if Qleb 40 hum && Qleb hum 50 then 100
  else if Qleb 30 hum && Qltb hum 40 || Qltb 50 hum && Qleb hum 60 then 50
  else 0.

Definition score_co2 (co2 : Q) : Z :=
  if Qleb co2 600 then 100
  else if Qleb co2 1000 then 75
  else if Qleb co2 2000 then 25
  else 0.

Definition score_voc (voc : Q) : Z :=
  if Qleb voc 300 then 100
  else if Qleb voc 500 then 50
  else 0.

Definition score_pm25 (pm25 : Q) : Z :=
  if Qleb pm25 12 then 100
  else if Qleb pm25 35 then 50
  else 0.

(** The values of the [scores] dict, in insertion order. *)
Definition scores (row : Reading) : list Z :=
  omap id [ score_temp <$> temp_c row;
            score_hum <$> humidity_pct row;
            score_co2 <$> co2_ppm row;
            score_voc <$> voc row;
            score_pm25 <$> pm25_ugm3 row ].

Definition sum_Z (l : list Z) : Z := foldr Z.add 0 l.

(** [calculate_comfort_score] *)
Definition calculate_comfort_score (row : Reading) : Q :=
  match scores row with
  | [] => 0%Q
  | s => (inject_Z (sum_Z s) / inject_Z (Z.of_nat (length s)))%Q
  end.

(** ** Utilisation *)

(** [astype(str).str.strip() == 'Occupied'] on one present cell.  [str] of a
    number is its literal, which is never the word. *)
Definition pir_is_Occupied (v : option PyVal) : bool :=
  match v with
  | Some (PStr s) => String.eqb (strip s) "Occupied"
  | _ => false
  end.

(** [dropna(subset=['pir_state'])] *)
Definition dropna_pir_state (df : DataFrame) : DataFrame :=
  filter (fun r => notna (pir_state r) = true) df.

Definition in_range_closed (start_date end_date : Z) (r : Reading) : bool :=
  match timestamp r with
  | Some t => (start_date <=? t) && (t <=? end_date)
  | None => false
  end.

Definition percent (part total : nat) : Q :=
  (inject_Z (Z.of_nat part) / inject_Z (Z.of_nat total) * 100)%Q.

(** The temporal utilisation the [dashboard] route computes for one booth
    between [start_date] and the upper bound it derives from [end_date]. *)
Definition temporal_utilization (start_date end_date : Z) (df_booth : DataFrame) : Q :=
  let filtered_df := filter (fun r => in_range_closed start_date end_date r = true) df_booth in
  match filtered_df with
  | [] => 0%Q
  | _ =>
      let temp_util_df := dropna_pir_state filtered_df in
      match temp_util_df with
      | [] => 0%Q
      | _ =>
          let occupied_count :=
            length (filter (fun r => pir_is_Occupied (pir_state r) = true) temp_util_df) in
          let total_count := length temp_util_df in
          if (0 <? total_count)%nat then percent occupied_count total_count else 0%Q
      end
  end.

Definition day_ns : Z := 86400 * 10 ^ 9.

Definition after_start (start_date : option Z) (r : Reading) : bool :=
  match start_date, timestamp r with
  | None, _ => true
  | Some s, Some t => s <=? t
  | Some _, None => false
  end.

Definition before_end (end_date : option Z) (r : Reading) : bool :=
  match end_date, timestamp r with
  | None, _ => true
  | Some e, Some t => t <? e + day_ns
  | Some _, None => false
  end.

(** The utilisation the [location_view] route computes for one booth; [None]
    when it appends nothing for the booth. *)
Definition location_utilization (start_date end_date : option Z) (df_booth : DataFrame)
    : option Q :=
  let filtered_df :=
    filter (fun r => before_end end_date r = true)
      (filter (fun r => after_start start_date r = true) df_booth) in
  let filtered_df := dropna_pir_state filtered_df in
  match filtered_df with
  | [] => None
  | _ =>
      let occupied_count :=
        length (filter (fun r => pir_is_Occupied (pir_state r) = true) filtered_df) in
      let total_count := length filtered_df in
      Some (if (0 <? total_count)%nat then percent occupied_count total_count else 0%Q)
  end.

(** The "currently occupied" test of the [dashboard] route on the latest
    reading: [str(latest.get('pir_state', '')).strip().title() == 'Occupied']. *)
Definition currently_occupied (latest : Reading) : bool :=
  match pir_state latest with
  | Some (PStr s) => String.eqb (title (strip s)) "Occupied"
  | _ => false
  end.

(** ** Fetching, loading, refreshing *)

(** [range(n)] *)
Definition range (n : Z) : list Z := Z.of_nat <$> seq 0 (Z.to_nat n).

(** The [for attempt in range(max_retries)] loop of
    [fetch_worksheet_with_retry], over the attempts still to make. *)
Fixpoint retry_loop (sheet : Spreadsheet) (worksheet_name : string) (max_retries : Z)
    (attempts : list Z) : M (option (list RawRow)) :=
  match attempts with
  | [] => ret None
  | attempt :: rest =>
      r <- request sheet worksheet_name;;
      match r with
      | Records data => ret (match data with [] => None | _ => Some data end)
      | WorksheetNotFound =>
          logger (WarnWorksheetNotFound worksheet_name);;;
          ret None
      | ApiError =>
          let wait_time := 2 ^ attempt in
          (if attempt <? max_retries - 1
           then logger (WarnRetrying worksheet_name (attempt + 1) max_retries wait_time);;;
                time_sleep (inject_Z wait_time)
           else logger (ErrFailedAfter worksheet_name max_retries));;;
          retry_loop sheet worksheet_name max_retries rest
      end
  end.

(** [fetch_worksheet_with_retry] *)
Definition fetch_worksheet_with_retry (spreadsheet : option Spreadsheet)
    (worksheet_name : string) (max_retries : Z) : M (option (list RawRow)) :=
  match spreadsheet with
  | None => ret None
  | Some sheet => retry_loop sheet worksheet_name max_retries (range max_retries)
  end.

Definition hour_ns : Z := 3600 * 10 ^ 9.

Definition dummy_row (L : Lib) (k : nat) (end_ : Z) (i : nat) : Reading :=
  {| timestamp := Some (end_ - (23 - Z.of_nat i) * hour_ns);
     temp_c := Some (random_normal L k "temp_c" i);
     humidity_pct := Some (random_normal L k "humidity_pct" i);
     co2_ppm := Some (random_normal L k "co2_ppm" i);
     pir_state := Some (PStr (if random_choice L k i then "Occupied" else "Vacant"));
     voc := Some (random_normal L k "voc" i);
     pm25_ugm3 := Some (random_normal L k "pm25_ugm3" i);
     ch2o_ppm := Some (random_normal L k "ch2o_ppm" i);
     occupancy_count := Some (inject_Z (random_randint L k i));
     light_lux := Some (random_normal L k "light_lux" i);
     sound_dBA := Some (random_normal L k "sound_dBA" i) |}.

(** [create_dummy_data]: 24 hourly rows ending now, filled with random draws. *)
Definition create_dummy_data (L : Lib) : M DataFrame := fun w =>
  (Ok (dummy_row L (draws w) (datetime_now L (now w)) <$> seq 0 24),
   {| cache := cache w; ttl := ttl w; now := now w; requests := requests w;
      sleeps := sleeps w; logs := logs w; draws := S (draws w); loads := loads w |}).

(** [v.replace(' ', '')]: only a str has the method. *)
Definition replace_spaces (v : PyVal) : M string :=
  match v with
  | PStr s => ret (remove_spaces s)
  | _ => raise AttributeError
  end.

(** The cache key of a (location, booth) pair of names. *)
Definition cache_key_of (loc booth : string) : string :=
  remove_spaces loc +:+ "_" +:+ remove_spaces booth.

(** Ghost: note that [load_sensor_data] was entered. *)
Definition enter_load (loc_name booth_name : PyVal) : M unit := fun w =>
  (Ok tt,
   {| cache := cache w; ttl := ttl w; now := now w; requests := requests w;
      sleeps := sleeps w; logs := logs w; draws := draws w;
      loads := loads w ++ [(loc_name, booth_name)] |}).

(** [load_sensor_data] *)
Definition load_sensor_data (L : Lib) (spreadsheet : option Spreadsheet)
    (loc_name booth_name : PyVal) : M (option DataFrame) :=
  enter_load loc_name booth_name;;;
  loc <- replace_spaces loc_name;;
  booth <- replace_spaces booth_name;;
  let cache_key := loc +:+ "_" +:+ booth in
  (* STEP 1 *)
  cached_data <- DataCache_get cache_key;;
  match cached_data with
  | Some df => ret (Some df)
  | None =>
      (* STEP 2 *)
      match spreadsheet with
      | None =>
          logger ErrNoConnection;;;
          df <- create_dummy_data L;;
          ret (Some df)
      | Some _ =>
          (* STEP 3 *)
          data <- fetch_worksheet_with_retry spreadsheet cache_key 3;;
          match data with
          | None =>
              logger (WarnCouldNotFetch cache_key);;;
              ret None
          | Some data =>
              (* STEP 4 *)
              if match data with [] => true | _ => DataFrame_empty data end
              then ret None
              else
                let df := normalize L data in
                (* STEP 5 *)
                DataCache_set cache_key df;;;
                logger (InfoLoadedAndCached cache_key);;;
                ret (Some df)
          end
      end
  end.

(** A row of [clients.csv] as [pandas.read_csv] loads it. *)
Record ClientRow := {
  client_name : PyVal;
  location : PyVal;
  booth : PyVal;
  booth_id : PyVal;
  max_occupancy : PyVal
}.

Fixpoint for_each {A} (l : list A) (body : A -> M unit) : M unit :=
  match l with
  | [] => ret tt
  | x :: l' => body x;;; for_each l' body
  end.

(** [refresh_all_booths]: one sweep over the roster. *)
Definition refresh_all_booths (L : Lib) (spreadsheet : option Spreadsheet)
    (df_clients : list ClientRow) : M unit :=
  logger InfoRefreshing;;;
  try_except
    (for_each df_clients (fun row =>
       load_sensor_data L spreadsheet (location row) (booth row);;;
       time_sleep (1 # 2));;;
     logger InfoRefreshCompleted)
    (fun e => logger ErrRefresh).

(** The first [n] rounds of the [while True] loop of
    [background_cache_refresh]. *)
Fixpoint background_cache_refresh (L : Lib) (spreadsheet : option Spreadsheet)
    (df_clients : list ClientRow) (n : nat) : M unit :=
  match n with
  | O => ret tt
  | S n' =>
      time_sleep 120;;;
      refresh_all_booths L spreadsheet df_clients;;;
      background_cache_refresh L spreadsheet df_clients n'
  end.

(** ** The specification's words, for comparison *)

(** Ascending by timestamp, undefined timestamps last. *)
Definition ts_le (a b : option Z) : bool :=
  match a, b with
  | Some x, Some y => x <=? y
  | _, None => true
  | None, Some _ => false
  end.

Fixpoint insert_by_timestamp (r : Reading) (sorted : DataFrame) : DataFrame :=
  match sorted with
  | [] => [r]
  | x :: rest =>
      if ts_le (timestamp r) (timestamp x) then r :: sorted
      else x :: insert_by_timestamp r rest
  end.

(** The stable sort of the specification: rows with equal or undefined
    timestamps keep their arrival order. *)
Definition stable_sort_by_timestamp (df : DataFrame) : DataFrame :=
  foldr insert_by_timestamp [] df.

(** Two rows in ascending timestamp order, undefined timestamps last. *)
Definition ascending (r1 r2 : Reading) : Prop :=
  ts_le (timestamp r1) (timestamp r2) = true.

(** The comfort table of the specification, column "100" first. *)
Definition between (lo hi x : Q) : bool := Qleb lo x && Qleb x hi.

Definition table_temp (x : Q) : Z :=
  if between 20 25 x then 100 else if between 18 20 x || between 25 27 x then 50 else 0.
Definition table_hum (x : Q) : Z :=
  if between 40 50 x then 100 else if between 30 40 x || between 50 60 x then 50 else 0.
Definition table_co2 (x : Q) : Z :=
  if Qleb x 600 then 100 else if Qleb x 1000 then 75 else if Qleb x 2000 then 25 else 0.
Definition table_voc (x : Q) : Z :=
  if Qleb x 300 then 100 else if Qleb x 500 then 50 else 0.
Definition table_pm25 (x : Q) : Z :=
  if Qleb x 12 then 100 else if Qleb x 35 then 50 else 0.

Definition mean (l : list Z) : Q :=
  (inject_Z (sum_Z l) / inject_Z (Z.of_nat (length l)))%Q.

(** A series was normalised from rows fetched from the remote provider: some
    request to the connected spreadsheet answered rows of which it is the
    cleaned, sorted frame. *)
Definition normalized_remote (L : Lib) (spreadsheet : option Spreadsheet)
    (df : DataFrame) : Prop :=
  exists sheet n name data,
    spreadsheet = Some sheet /\ sheet n name = Records data /\ df = normalize L data.

(** The fetch for [name] that starts when [n0] requests were made gets the
    answer [r] after [k] transient failures. *)
Definition answers_after (sheet : Spreadsheet) (name : string) (n0 k : nat)
    (r : Response) : Prop :=
  (forall j, (j < k)%nat -> sheet (n0 + j)%nat name = ApiError) /\
  sheet (n0 + k)%nat name = r.

(** The three ways a fetch of at most three attempts ends. *)
Definition fetch_not_found (sheet : Spreadsheet) (name : string) (n0 : nat) : Prop :=
  exists k, (k < 3)%nat /\ answers_after sheet name n0 k WorksheetNotFound.

Definition fetch_exhausted (sheet : Spreadsheet) (name : string) (n0 : nat) : Prop :=
  forall j, (j < 3)%nat -> sheet (n0 + j)%nat name = ApiError.

Definition fetch_succeeds (sheet : Spreadsheet) (name : string) (n0 : nat)
    (data : list RawRow) : Prop :=
  exists k, (k < 3)%nat /\ answers_after sheet name n0 k (Records data).

(** What a non-empty answer hands to the caller: [data if data else None]. *)
Definition rows_of (r : Response) : option (list RawRow) :=
  match r with
  | Records (x :: data) => Some (x :: data)
  | _ => None
  end.

(** Every cached series was normalised from rows fetched from the provider. *)
Definition cache_from_remote (L : Lib) (spreadsheet : option Spreadsheet)
    (w : World) : Prop :=
  forall key item, cache w !! key = Some item ->
    normalized_remote L spreadsheet (entry_data item).

(** The cache object and the ghost state are as before. *)
Definition same_store (w w' : World) : Prop :=
  cache w' = cache w /\ ttl w' = ttl w /\ loads w' = loads w /\ draws w' = draws w.

(** The pair of names a roster row stands for. *)
Definition roster_key (row : ClientRow) : PyVal * PyVal := (location row, booth row).

Definition is_str (v : PyVal) : bool :=
  match v with PStr _ => true | _ => false end.

Definition names_are_str (row : ClientRow) : bool :=
  is_str (location row) && is_str (booth row).

(** The pairs one sweep gets to: every roster row up to and including the
    first one whose names are not both strings. *)
Fixpoint attempted (df_clients : list ClientRow) : list (PyVal * PyVal) :=
  match df_clients with
  | [] => []
  | row :: rest => roster_key row :: (if names_are_str row then attempted rest else [])
  end.

(** ** Concrete instances *)

(** Keys ascending, equal keys by position. *)
Definition key_pos_le (a b : Z * nat) : Prop :=
  a.1 < b.1 \/ (a.1 = b.1 /\ (a.2 <= b.2)%nat).

#[global] Instance key_pos_le_dec a b : Decision (key_pos_le a b).
Proof. unfold key_pos_le. apply _. Defined.

(** An argsort by merge sort of (key, position) pairs; it keeps ties in
    order. *)
Definition argsort_by_merge (ks : list Z) : list nat :=
  (merge_sort key_pos_le (zip ks (seq 0 (length ks)))).*2.

(** An argsort in the manner of numpy's 'quicksort' kind, an introsort over the
    array [a] of positions: ranges of 17 positions or more are partitioned
    around the median of three, shorter ones are insertion-sorted.  (numpy
    also falls back on heapsort past a recursion depth; the inputs used below
    stay far from it.) *)
Definition swap (a : list nat) (i j : nat) : list nat :=
  <[i := a !!! j]> (<[j := a !!! i]> a).

Definition key_at (v : list Z) (a : list nat) (p : nat) : Z := v !!! (a !!! p).

(** [do ++pi; while (v[*pi] < vp)] and [do --pj; while (vp < v[*pj])], from the
    position already stepped to. *)
Fixpoint scan_up (fuel : nat) (v : list Z) (a : list nat) (vp : Z) (p : nat) : nat :=
  match fuel with
  | O => p
  | S fuel' => if key_at v a p <? vp then scan_up fuel' v a vp (S p) else p
  end.

Fixpoint scan_down (fuel : nat) (v : list Z) (a : list nat) (vp : Z) (p : nat) : nat :=
  match fuel with
  | O => p
  | S fuel' => if vp <? key_at v a p then scan_down fuel' v a vp (p - 1) else p
  end.

Fixpoint partition_loop (fuel : nat) (v : list Z) (a : list nat) (vp : Z) (pi pj : nat)
    : list nat * nat :=
  match fuel with
  | O => (a, pi)
  | S fuel' =>
      let pi := scan_up (length a) v a vp (S pi) in
      let pj := scan_down (length a) v a vp (pj - 1) in
      if (pj <=? pi)%nat then (a, pi)
      else partition_loop fuel' v (swap a pi pj) vp pi pj
  end.

Definition partition (v : list Z) (a : list nat) (pl pr : nat) : list nat * nat :=
  let pm := (pl + (pr - pl) / 2)%nat in
  let a := if key_at v a pm <? key_at v a pl then swap a pm pl else a in
  let a := if key_at v a pr <? key_at v a pm then swap a pr pm else a in
  let a := if key_at v a pm <? key_at v a pl then swap a pm pl else a in
  let vp := key_at v a pm in
  let a := swap a pm (pr - 1) in
  let '(a, pi) := partition_loop (length a) v a vp pl (pr - 1) in
  (swap a pi (pr - 1), pi).

Fixpoint sift (fuel : nat) (v : list Z) (a : list nat) (pl pj vi : nat) : list nat :=
  match fuel with
  | O => <[pj := vi]> a
  | S fuel' =>
      if (pl <? pj)%nat && (v !!! vi <? key_at v a (pj - 1))
      then sift fuel' v (<[pj := a !!! (pj - 1)%nat]> a) pl (pj - 1) vi
      else <[pj := vi]> a
  end.

Definition insertion_sort (v : list Z) (a : list nat) (pl pr : nat) : list nat :=
  foldl (fun a pi => sift (length a) v a pl pi (a !!! pi)) a (seq (S pl) (pr - pl)).

Fixpoint aquicksort_range (fuel : nat) (v : list Z) (a : list nat) (pl pr : nat)
    : list nat :=
  match fuel with
  | O => a
  | S fuel' =>
      if (16 <=? pr - pl)%nat then
        let '(a, pi) := partition v a pl pr in
        let a := aquicksort_range fuel' v a pl (pi - 1) in
        aquicksort_range fuel' v a (pi + 1) pr
      else insertion_sort v a pl pr
  end.

Definition aquicksort (v : list Z) : list nat :=
  aquicksort_range (S (length v)) v (seq 0 (length v)) 0 (length v - 1).

(** [indexer] is a permutation of the positions of [ks] along which the keys
    ascend. *)
Definition sorts (ks : list Z) (indexer : list nat) : Prop :=
  merge_sort Nat.le indexer = seq 0 (length ks) /\ Sorted Z.le (take_keys ks indexer).

#[global] Instance sorts_dec ks indexer : Decision (sorts ks indexer).
Proof. unfold sorts. apply _. Defined.

(** A candidate argsort, kept wherever its result does sort the keys. *)
Definition argsort_checked (candidate : list Z -> list nat) (ks : list Z) : list nat :=
  if decide (sorts ks (candidate ks)) then candidate ks else argsort_by_merge ks.

(** A library instance around an argsort: integer cells are epoch nanoseconds,
    no string is a number, the random draws are constant. *)
Definition lib_with_argsort (f : list Z -> list nat) : Lib :=
  {| str_to_numeric := fun _ => None;
     to_datetime := fmap (fun v => match v with Some (PInt z) => Some z | _ => None end);
     argsort := f;
     datetime_now := fun t => Qfloor (t * 1000000000);
     random_normal := fun _ _ _ => 22%Q;
     random_choice := fun _ _ => false;
     random_randint := fun _ _ => 0 |}.

Definition demo_lib : Lib := lib_with_argsort argsort_by_merge.

Definition introsort_lib : Lib := lib_with_argsort (argsort_checked aquicksort).

Definition empty_world : World :=
  {| cache := ∅; ttl := 120; now := 1000; requests := []; sleeps := [];
     logs := []; draws := 0; loads := [] |}.

Definition raw_row (ts : Z) (temp : Z) (pir : string) : RawRow :=
  <["timestamp" := PInt ts]> (<["temp_c" := PInt temp]> (<["pir_state" := PStr pir]> ∅)).

Definition reading_at (ts : Z) (pir : string) : Reading :=
  {| timestamp := Some ts; temp_c := None; humidity_pct := None; co2_ppm := None;
     pir_state := Some (PStr pir); voc := None; pm25_ugm3 := None; ch2o_ppm := None;
     occupancy_count := None; light_lux := None; sound_dBA := None |}.

Definition no_sensors : Reading :=
  {| timestamp := None; temp_c := None; humidity_pct := None; co2_ppm := None;
     pir_state := None; voc := None; pm25_ugm3 := None; ch2o_ppm := None;
     occupancy_count := None; light_lux := None; sound_dBA := None |}.

Definition always (r : Response) : Spreadsheet := fun _ _ => r.

Definition cached_item : CacheEntry :=
  {| entry_data := [no_sensors]; entry_timestamp := 0 |}.

(** An entry stored at time 0 read at time [t] under the 120 s TTL. *)
Definition world_at (t : Q) : World :=
  {| cache := {[ "Adelaide_BoothA" := cached_item ]};
     ttl := 120; now := t; requests := []; sleeps := []; logs := [];
     draws := 0; loads := [] |}.

(** The readings of the specification's examples. *)
Definition ideal_reading : Reading :=
  {| timestamp := Some 0; temp_c := Some 22%Q; humidity_pct := Some 45%Q;
     co2_ppm := Some 500%Q; pir_state := None; voc := Some 200%Q;
     pm25_ugm3 := Some 10%Q; ch2o_ppm := None; occupancy_count := None;
     light_lux := None; sound_dBA := None |}.

Definition co2_only_reading : Reading :=
  {| timestamp := Some 0; temp_c := None; humidity_pct := None;
     co2_ppm := Some 1500%Q; pir_state := None; voc := None;
     pm25_ugm3 := None; ch2o_ppm := None; occupancy_count := None;
     light_lux := None; sound_dBA := None |}.

Definition four_readings : DataFrame :=
  [ reading_at 1 "Occupied"; reading_at 2 "occupied "; reading_at 3 "Vacant";
    reading_at 4 "Vacant" ].

Definition no_rows_sheet : Spreadsheet := always (Records []).

Definition client_row (loc booth : PyVal) : ClientRow :=
  {| client_name := PStr "Acme"; location := loc; booth := booth;
     booth_id := PInt 1; max_occupancy := PInt 4 |}.

(** A roster whose first row has a blank location cell. *)
Definition roster_with_blank : list ClientRow :=
  [ client_row PNaN (PStr "Booth A"); client_row (PStr "Adelaide") (PStr "Booth B") ].

Definition roster_of_names : list ClientRow :=
  [ client_row (PStr "Adelaide") (PStr "Booth A");
    client_row (PStr "Adelaide") (PStr "Booth B") ].

(** Eighteen rows of one timestamp, told apart by their temperature. *)
Definition tied_rows : list RawRow :=
  (fun i => raw_row 5 (Z.of_nat i) "Vacant") <$> seq 0 18.

(** A row with an unreadable timestamp between two dated rows. *)
Definition garbled_rows : list RawRow :=
  [ raw_row 9 1 "Vacant";
    <["timestamp" := PStr "n/a"]> (<["temp_c" := PStr "warm"]> ∅);
    raw_row 3 3 "Occupied" ].

(** ** Access to a booth *)

(** Python's [==] between two cells. *)
Definition py_eq (a b : PyVal) : bool :=
  match a, b with
  | PStr s, PStr t => String.eqb s t
  | PInt x, PInt y => x =? y
  | PInt x, PFloat q | PFloat q, PInt x => Qeq_bool (inject_Z x) q
  | PFloat p, PFloat q => Qeq_bool p q
  | _, _ => false
  end.

(** The security check of the [booth] and [analytics] routes: [false] is the
    403 answer.  [role] and [client] are the session's role and client_name,
    the names come from the URL. *)
Definition booth_access (df_clients : list ClientRow) (role client : PyVal)
    (loc_name booth_name : string) : bool :=
  if py_eq role (PStr "client") then
    let allowed_booths :=
      filter (fun row => py_eq (client_name row) client
                         && py_eq (location row) (PStr loc_name) = true) df_clients in
    existsb (fun b => py_eq (PStr booth_name) b) (booth <$> allowed_booths)
  else true.

(** ** More of the dashboard route *)

(** [df_booth.iloc[-1]], the reading the dashboard shows for a booth. *)
Definition latest (df_booth : DataFrame) : option Reading := last df_booth.

Definition Qsum (l : list Q) : Q := foldr Qplus 0%Q l.

(** The rows [dropna(subset=['occupancy_count'])] and then
    [occupancy_count > 0] keep. *)
Definition positive_occupancy (r : Reading) : bool :=
  match occupancy_count r with
  | Some c => Qltb 0 c
  | None => false
  end.

(** The capacity utilisation the [dashboard] route computes from the in-range
    rows of a booth and the booth's [max_occupancy]. *)
Definition capacity_utilization (max_occ : Q) (filtered_df : DataFrame) : Q :=
  let cap_util_df := filter (fun r => positive_occupancy r = true) filtered_df in
  match cap_util_df with
  | [] => 0%Q
  | _ =>
      if Qltb 0 max_occ then
        let avg_occupancy :=
          (Qsum (omap occupancy_count cap_util_df)
           / inject_Z (Z.of_nat (length cap_util_df)))%Q in
        (avg_occupancy / max_occ * 100)%Q
      else 0%Q
  end.

(** The alerts the [dashboard] route raises on the latest reading of a
    booth; the message text is left out, an alert carries the names and the
    value the message is formatted from. *)
Inductive Alert :=
  | HighCO2 (loc booth : string) (co2_val : Q)
  | HighTemp (loc booth : string) (temp_val : Q).

Definition active_alerts (loc booth : string) (latest : Reading) : list Alert :=
  (match co2_ppm latest with
   | Some co2_val => if Qltb 1000 co2_val then [HighCO2 loc booth co2_val] else []
   | None => []
   end) ++
  (match temp_c latest with
   | Some temp_val => if Qltb 25 temp_val then [HighTemp loc booth temp_val] else []
   | None => []
   end).

(** A string of whitespace only. *)
Fixpoint all_space (s : string) : bool :=
  match s with
  | EmptyString => true
  | String a s' => py_isspace a && all_space s'
  end.

(** [s.lower()] on ASCII. *)
Fixpoint lower (s : string) : string :=
  match s with
  | EmptyString => EmptyString
  | String a s' => String (py_lower a) (lower s')
  end.

(** A second key, one other entry and a fresh entry for the instances. *)
Definition two_entry_world : World :=
  {| cache := <["Sydney_Booth1" := cached_item]> {[ "Adelaide_BoothA" := cached_item ]};
     ttl := 120; now := 60; requests := []; sleeps := []; logs := [];
     draws := 0; loads := [] |}.

(** A provider that fails once and then answers the eighteen rows. *)
Definition flaky_sheet : Spreadsheet :=
  fun n _ => match n with
             | O => ApiError
             | _ => Records tied_rows
             end.

(** * Properties *)

(** ** Comparisons *)

Lemma Qltb_lt x y : Qltb x y = true <-> (x < y)%Q.
Proof.
  unfold Qltb. rewrite negb_true_iff, <- not_true_iff_false, Qle_bool_iff.
  split; [apply Qnot_le_lt | apply Qlt_not_le].
Qed.

Lemma Qltb_ge x y : Qltb x y = false <-> (y <= x)%Q.
Proof. unfold Qltb. rewrite negb_false_iff. apply Qle_bool_iff. Qed.

(** ** DataCache *)

Lemma DataCache_get_absent key w :
  cache w !! key = None -> DataCache_get key w = (Ok None, w).
Proof. intros H. unfold DataCache_get. now rewrite H. Qed.

Lemma DataCache_get_fresh key w item :
  cache w !! key = Some item ->
  (now w - entry_timestamp item < ttl w)%Q ->
  DataCache_get key w = (Ok (Some (entry_data item)), w).
Proof.
  intros Hk Hage. unfold DataCache_get. rewrite Hk.
  apply Qltb_lt in Hage. now rewrite Hage.
Qed.

Lemma DataCache_get_stale key w item :
  cache w !! key = Some item ->
  (ttl w <= now w - entry_timestamp item)%Q ->
  DataCache_get key w = (Ok None, set_cache (delete key (cache w)) w).
Proof.
  intros Hk Hage. unfold DataCache_get. rewrite Hk.
  apply Qltb_ge in Hage. now rewrite Hage.
Qed.

(** Whatever [get] does, it returns without raising, leaves every other key
    alone and can only drop the entry of [key]. *)
Lemma DataCache_get_cases key w :
  (exists item, cache w !! key = Some item /\
     DataCache_get key w = (Ok (Some (entry_data item)), w)) \/
  (DataCache_get key w =
     (Ok None, set_cache (match cache w !! key with
                          | Some _ => delete key (cache w)
                          | None => cache w
                          end) w)).
Proof.
  unfold DataCache_get. destruct (cache w !! key) as [item|] eqn:Hk.
  - destruct (Qltb _ _); [left; eauto | right; reflexivity].
  - right. destruct w; reflexivity.
Qed.

(** C6. For a key with a cache entry, [get] returns the stored series while the
    entry's age [now - fetchedAt] is strictly below the TTL; once the age
    reaches the TTL it returns absent and removes the entry, and any later
    [get] on the cache it leaves (no [set] in between, whatever the clock)
    finds nothing either. *)
Theorem DataCache_get_ttl (key : string) (w : World) (item : CacheEntry) :
  cache w !! key = Some item ->
  ((now w - entry_timestamp item < ttl w)%Q ->
   DataCache_get key w = (Ok (Some (entry_data item)), w))
  /\
  ((ttl w <= now w - entry_timestamp item)%Q ->
   exists w',
     DataCache_get key w = (Ok None, w') /\
     cache w' = delete key (cache w) /\
     cache w' !! key = None /\
     forall w2, cache w2 = cache w' -> DataCache_get key w2 = (Ok None, w2)).
Proof.
  intros Hk. split; intros Hage.
  - now apply DataCache_get_fresh.
  - exists (set_cache (delete key (cache w)) w). split; [|split; [|split]].
    + now apply (DataCache_get_stale key w item).
    + reflexivity.
    + apply lookup_delete_eq.
    + intros w2 Hw2. apply DataCache_get_absent.
      rewrite Hw2. apply lookup_delete_eq.
Qed.

Lemma DataCache_get_ttl_witness :
  cache (world_at 119) !! "Adelaide_BoothA" = Some cached_item /\
  cache (world_at 120) !! "Adelaide_BoothA" = Some cached_item /\
  fst (DataCache_get "Adelaide_BoothA" (world_at 119)) = Ok (Some [no_sensors]) /\
  fst (DataCache_get "Adelaide_BoothA" (world_at 120)) = Ok None.
Proof.
  split; [reflexivity|]. split; [reflexivity|]. split.
  - destruct (DataCache_get_ttl "Adelaide_BoothA" (world_at 119) cached_item eq_refl)
      as [Hfresh _].
    rewrite Hfresh; [reflexivity|]. reflexivity.
  - destruct (DataCache_get_ttl "Adelaide_BoothA" (world_at 120) cached_item eq_refl)
      as [_ Hstale].
    destruct Hstale as (w' & Hget & _); [discriminate|].
    rewrite Hget. reflexivity.
Defined.

(** ** Comfort score *)

(** Case analysis on every comparison of the goal; the impossible
    combinations are closed by linear arithmetic on numerators. *)
Ltac q_cases :=
  unfold between, Qleb, Qltb;
  repeat match goal with
    | |- context [Qle_bool ?a ?b] =>
        let H := fresh "Hq" in destruct (Qle_bool a b) eqn:H
    end;
  repeat match goal with
    | H : Qle_bool _ _ = true |- _ => apply Qle_bool_iff in H
    | H : Qle_bool _ _ = false |- _ =>
        apply not_true_iff_false in H; rewrite Qle_bool_iff in H; apply Qnot_le_lt in H
    end;
  simpl; try reflexivity; exfalso; unfold Qle, Qlt in *; simpl in *; lia.

Lemma score_temp_table x : score_temp x = table_temp x.
Proof. unfold score_temp, table_temp. q_cases. Qed.

Lemma score_hum_table x : score_hum x = table_hum x.
Proof. unfold score_hum, table_hum. q_cases. Qed.

Lemma score_temp_values x : score_temp x ∈ [0; 25; 50; 75; 100].
Proof. unfold score_temp. repeat case_match; set_solver. Qed.

Lemma score_hum_values x : score_hum x ∈ [0; 25; 50; 75; 100].
Proof. unfold score_hum. repeat case_match; set_solver. Qed.

Lemma score_co2_values x : score_co2 x ∈ [0; 25; 50; 75; 100].
Proof. unfold score_co2. repeat case_match; set_solver. Qed.

Lemma score_voc_values x : score_voc x ∈ [0; 25; 50; 75; 100].
Proof. unfold score_voc. repeat case_match; set_solver. Qed.

Lemma score_pm25_values x : score_pm25 x ∈ [0; 25; 50; 75; 100].
Proof. unfold score_pm25. repeat case_match; set_solver. Qed.

Lemma scores_values row : Forall (fun s => s ∈ [0; 25; 50; 75; 100]) (scores row).
Proof.
  unfold scores.
  destruct (temp_c row), (humidity_pct row), (co2_ppm row), (voc row), (pm25_ugm3 row);
    simpl; repeat match goal with |- Forall _ _ => constructor end;
    auto using score_temp_values, score_hum_values, score_co2_values,
               score_voc_values, score_pm25_values.
Qed.

(** C9. Each present value among temperature, humidity, CO2, VOC and PM2.5 goes
    through the fixed piecewise table to a sub-score in {0, 25, 50, 75, 100};
    the score is the arithmetic mean of the present sub-scores and 0 when no
    metric is present.  The reading 22 C / 45 % / 500 ppm / VOC 200 / PM2.5 10
    scores 100, a reading with only CO2 = 1500 scores 25, a reading with no
    sensor field scores 0. *)
Theorem calculate_comfort_score_table (row : Reading) :
  scores row =
    omap id [ table_temp <$> temp_c row; table_hum <$> humidity_pct row;
              table_co2 <$> co2_ppm row; table_voc <$> voc row;
              table_pm25 <$> pm25_ugm3 row ] /\
  Forall (fun s => s ∈ [0; 25; 50; 75; 100]) (scores row) /\
  length (scores row) =
    length (omap id [ temp_c row; humidity_pct row; co2_ppm row; voc row;
                      pm25_ugm3 row ]) /\
  calculate_comfort_score row =
    (if bool_decide (scores row = []) then 0%Q else mean (scores row)) /\
  (calculate_comfort_score ideal_reading == 100)%Q /\
  (calculate_comfort_score co2_only_reading == 25)%Q /\
  calculate_comfort_score no_sensors = 0%Q.
Proof.
  split; [|split; [|split; [|split; [|split; [|split]]]]].
  - unfold scores.
    destruct (temp_c row), (humidity_pct row), (co2_ppm row), (voc row), (pm25_ugm3 row);
      simpl; rewrite ?score_temp_table, ?score_hum_table; reflexivity.
  - apply scores_values.
  - unfold scores.
    destruct (temp_c row), (humidity_pct row), (co2_ppm row), (voc row), (pm25_ugm3 row);
      reflexivity.
  - unfold calculate_comfort_score, mean. destruct (scores row); reflexivity.
  - reflexivity.
  - reflexivity.
  - reflexivity.
Qed.

(** ** Temporal utilisation *)

(** C2. On four in-range readings with pir_state "Occupied", "occupied ",
    "Vacant", "Vacant" the specification asks for 50 %: the state is to be
    trimmed and case-normalised.  Both routes only trim
    ([astype(str).str.strip() == 'Occupied']), so "occupied " is not counted and
    they yield 25 %; the "currently occupied" test of the dashboard, which
    applies [.strip().title()], does accept the same cell. *)
Theorem temporal_utilization_ignores_case_variants :
  (temporal_utilization 0 10 four_readings == 25)%Q /\
  (exists q, location_utilization None None four_readings = Some q /\ (q == 25)%Q) /\
  ~ (temporal_utilization 0 10 four_readings == 50)%Q /\
  pir_is_Occupied (Some (PStr "occupied ")) = false /\
  currently_occupied (reading_at 2 "occupied ") = true.
Proof.
  split; [reflexivity|]. split.
  - eexists. split; reflexivity.
  - split; [|split; reflexivity].
    intros H. vm_compute in H. discriminate.
Qed.

(** ** fetch_worksheet_with_retry *)

Lemma length_snoc {A} (l : list A) (x : A) : length (l ++ [x]) = S (length l).
Proof. rewrite length_app. simpl. lia. Qed.

Lemma range_pos (n : Z) : 0 < n -> exists rest, range n = 0 :: rest.
Proof.
  intros Hn. unfold range.
  destruct (Z.to_nat n) as [|k] eqn:Hk; [lia|]. simpl. eauto.
Qed.

(** C7. Against a provider that reports the worksheet as not found, the fetch
    asks the provider exactly once, does not wait, and returns absent, however
    many attempts it was allowed. *)
Theorem fetch_not_found_once (sheet : Spreadsheet) (worksheet_name : string)
    (max_retries : Z) (w : World) :
  0 < max_retries ->
  sheet (length (requests w)) worksheet_name = WorksheetNotFound ->
  exists w',
    fetch_worksheet_with_retry (Some sheet) worksheet_name max_retries w = (Ok None, w') /\
    requests w' = requests w ++ [worksheet_name] /\
    sleeps w' = sleeps w /\
    now w' = now w /\
    cache w' = cache w /\
    logs w' = logs w ++ [WarnWorksheetNotFound worksheet_name].
Proof.
  intros Hpos H. unfold fetch_worksheet_with_retry.
  destruct (range_pos max_retries Hpos) as [rest ->]. simpl.
  unfold bind, request. rewrite H. simpl.
  eexists. split; [reflexivity|]. simpl. repeat split.
Qed.

Lemma fetch_not_found_once_witness :
  0 < 3 /\
  always WorksheetNotFound (length (requests empty_world)) "Adelaide_BoothA"
    = WorksheetNotFound /\
  exists w',
    fetch_worksheet_with_retry (Some (always WorksheetNotFound)) "Adelaide_BoothA" 3
      empty_world = (Ok None, w') /\
    requests w' = ["Adelaide_BoothA"] /\ sleeps w' = [].
Proof.
  split; [reflexivity|]. split; [reflexivity|].
  destruct (fetch_not_found_once (always WorksheetNotFound) "Adelaide_BoothA" 3
              empty_world eq_refl eq_refl) as (w' & Hrun & Hreq & Hsl & _).
  exists w'. split; [exact Hrun|]. split; [exact Hreq | exact Hsl].
Defined.

(** C3, what the code does.  The docstring of the fetch promises waits of 1, 2
    and 4 seconds, and the comment on [wait_time] repeats that schedule.  The
    code keeps less: against a provider that fails transiently at every
    attempt, it asks the provider exactly three times, waits 1 and then 2 time
    units between the attempts ([2 ^ attempt] after attempts 0 and 1), and
    returns absent.  The wait of 4 is computed at the last attempt and never
    slept, the sleep being guarded by [attempt < max_retries - 1]. *)
Theorem fetch_transient_exhausted (sheet : Spreadsheet) (worksheet_name : string)
    (w : World) :
  (forall n, sheet n worksheet_name = ApiError) ->
  exists w',
    fetch_worksheet_with_retry (Some sheet) worksheet_name 3 w = (Ok None, w') /\
    requests w' = requests w ++ [worksheet_name; worksheet_name; worksheet_name] /\
    sleeps w' = sleeps w ++ [inject_Z (2 ^ 0); inject_Z (2 ^ 1)] /\
    cache w' = cache w /\
    logs w' = logs w ++ [ WarnRetrying worksheet_name 1 3 1;
                          WarnRetrying worksheet_name 2 3 2;
                          ErrFailedAfter worksheet_name 3 ].
Proof.
  intros H. unfold fetch_worksheet_with_retry. simpl.
  unfold bind, request, logger, time_sleep, ret. simpl. rewrite !H. simpl.
  eexists. split; [reflexivity|]. simpl.
  rewrite <- !app_assoc. simpl. repeat split.
Qed.

Lemma fetch_transient_exhausted_witness :
  (forall n, always ApiError n "Adelaide_BoothA" = ApiError) /\
  exists w',
    fetch_worksheet_with_retry (Some (always ApiError)) "Adelaide_BoothA" 3 empty_world
      = (Ok None, w') /\
    length (requests w') = 3%nat /\ sleeps w' = [1%Q; 2%Q].
Proof.
  split; [reflexivity|].
  destruct (fetch_transient_exhausted (always ApiError) "Adelaide_BoothA" empty_world
              (fun n => eq_refl)) as (w' & Hrun & Hreq & Hsl & _).
  exists w'. split; [exact Hrun|]. split.
  - rewrite Hreq. reflexivity.
  - rewrite Hsl. reflexivity.
Defined.

(** C3 on a provider that always fails transiently: after three failed
    attempts the waits were 1 and 2, not the 1, 2 and 4 of the docstring. *)
Lemma fetch_transient_waits_counterexample :
  let w' := snd (fetch_worksheet_with_retry (Some (always ApiError)) "Adelaide_BoothA" 3
                   empty_world) in
  requests w' = ["Adelaide_BoothA"; "Adelaide_BoothA"; "Adelaide_BoothA"] /\
  sleeps w' = [1%Q; 2%Q] /\
  sleeps w' <> [1%Q; 2%Q; 4%Q].
Proof.
  split; [reflexivity|]. split; [reflexivity|]. discriminate.
Qed.

(** *** The retry loop in general *)

Lemma same_store_refl w : same_store w w.
Proof. repeat split. Qed.

Lemma same_store_trans w1 w2 w3 : same_store w1 w2 -> same_store w2 w3 -> same_store w1 w3.
Proof.
  unfold same_store. intros (?&?&?&?) (?&?&?&?). repeat split; congruence.
Qed.

(** One failed attempt: the request, the log line, and the wait if attempts
    remain. *)
Lemma failed_attempt_step sheet name m attempt rest w :
  sheet (length (requests w)) name = ApiError ->
  exists w1,
    retry_loop sheet name m (attempt :: rest) w = retry_loop sheet name m rest w1 /\
    same_store w w1 /\ requests w1 = requests w ++ [name].
Proof.
  intros H. simpl. unfold bind at 1. unfold request at 1. rewrite H.
  unfold bind at 1. destruct (attempt <? m - 1); simpl.
  - eexists. split; [reflexivity|]. repeat split.
  - eexists. split; [reflexivity|]. repeat split.
Qed.

Lemma retry_loop_answers sheet name m attempts : forall w k r,
  (k < length attempts)%nat ->
  answers_after sheet name (length (requests w)) k r ->
  r <> ApiError ->
  exists w',
    retry_loop sheet name m attempts w = (Ok (rows_of r), w') /\
    same_store w w' /\
    requests w' = requests w ++ replicate (S k) name.
Proof.
  induction attempts as [|attempt rest IH]; intros w k r Hk [Hfail Hans] Hr;
    [simpl in Hk; lia|].
  destruct k as [|k].
  - rewrite Nat.add_0_r in Hans. simpl.
    unfold bind at 1. unfold request at 1. rewrite Hans.
    destruct r as [data| |]; [| |congruence].
    + eexists. split; [destruct data; reflexivity|]. repeat split.
    + eexists. split; [reflexivity|]. repeat split.
  - destruct (failed_attempt_step sheet name m attempt rest w) as (w1 & Hstep & Hst & Hreq).
    { rewrite <- (Hfail 0%nat) by lia. now rewrite Nat.add_0_r. }
    destruct (IH w1 k r) as (w' & Hrun & Hst' & Hreq'); [simpl in Hk; lia| |assumption|].
    { rewrite Hreq, length_snoc. split.
      - intros j Hj. rewrite <- (Hfail (S j)) by lia. f_equal. lia.
      - rewrite <- Hans. f_equal. lia. }
    exists w'. split; [now rewrite Hstep|]. split; [eapply same_store_trans; eassumption|].
    rewrite Hreq', Hreq, <- app_assoc. reflexivity.
Qed.

Lemma retry_loop_exhausted sheet name m attempts : forall w,
  (forall j, (j < length attempts)%nat ->
     sheet (length (requests w) + j)%nat name = ApiError) ->
  exists w',
    retry_loop sheet name m attempts w = (Ok None, w') /\
    same_store w w' /\
    requests w' = requests w ++ replicate (length attempts) name.
Proof.
  induction attempts as [|attempt rest IH]; intros w Hfail.
  - exists w. simpl. rewrite app_nil_r. repeat split.
  - destruct (failed_attempt_step sheet name m attempt rest w) as (w1 & Hstep & Hst & Hreq).
    { rewrite <- (Hfail 0%nat) by (simpl; lia). now rewrite Nat.add_0_r. }
    destruct (IH w1) as (w' & Hrun & Hst' & Hreq').
    { intros j Hj. rewrite Hreq, length_snoc.
      rewrite <- (Hfail (S j)) by (simpl; lia). f_equal. lia. }
    exists w'. split; [now rewrite Hstep|]. split; [eapply same_store_trans; eassumption|].
    rewrite Hreq', Hreq, <- app_assoc. reflexivity.
Qed.

(** Whatever the provider answers, the loop returns without raising, leaves
    the cache alone, and hands over only non-empty rows that the provider
    answered. *)
Lemma retry_loop_frame sheet name m attempts : forall w,
  exists r w',
    retry_loop sheet name m attempts w = (Ok r, w') /\
    same_store w w' /\
    (exists asked, requests w' = requests w ++ asked /\
                   (attempts <> [] -> exists more, asked = name :: more)) /\
    match r with
    | Some data => data <> [] /\ exists n, sheet n name = Records data
    | None => True
    end.
Proof.
  induction attempts as [|attempt rest IH]; intros w.
  - exists None, w. simpl. split; [reflexivity|]. split; [apply same_store_refl|].
    split; [|exact I]. exists []. rewrite app_nil_r. split; [reflexivity | congruence].
  - destruct (sheet (length (requests w)) name) as [data| |] eqn:Hans.
    + simpl. unfold bind at 1. unfold request at 1. rewrite Hans.
      eexists _, _. split; [reflexivity|]. split; [repeat split|].
      split; [exists [name]; simpl; split; eauto|].
      destruct data; [exact I|]. split; [congruence | eauto].
    + simpl. unfold bind at 1. unfold request at 1. rewrite Hans.
      eexists _, _. split; [reflexivity|]. split; [repeat split|].
      split; [exists [name]; simpl; split; eauto | exact I].
    + destruct (failed_attempt_step sheet name m attempt rest w Hans)
        as (w1 & Hstep & Hst & Hreq).
      destruct (IH w1) as (r & w' & Hrun & Hst' & (asked & Hasked & _) & Hr).
      exists r, w'. split; [now rewrite Hstep|].
      split; [eapply same_store_trans; eassumption|]. split; [|exact Hr].
      exists (name :: asked). split; [|eauto].
      rewrite Hasked, Hreq, <- app_assoc. reflexivity.
Qed.

(** The rows a fetch hands over are the provider's answer to one of the
    requests that this fetch made. *)
Lemma retry_loop_answer_index sheet name m attempts : forall w,
  exists r w',
    retry_loop sheet name m attempts w = (Ok r, w') /\
    (length (requests w) <= length (requests w'))%nat /\
    match r with
    | Some data =>
        exists n, (length (requests w) <= n < length (requests w'))%nat /\
                  sheet n name = Records data
    | None => True
    end.
Proof.
  induction attempts as [|attempt rest IH]; intros w.
  - exists None, w. simpl. split; [reflexivity|]. split; [lia | exact I].
  - destruct (sheet (length (requests w)) name) as [data| |] eqn:Hans.
    + simpl. unfold bind at 1. unfold request at 1. rewrite Hans.
      destruct data as [|row data].
      * eexists _, _. split; [reflexivity|]. simpl. rewrite length_app. simpl.
        split; [lia | exact I].
      * eexists _, _. split; [reflexivity|]. simpl. rewrite length_app. simpl.
        split; [lia|]. exists (length (requests w)). split; [lia | exact Hans].
    + simpl. unfold bind at 1. unfold request at 1. rewrite Hans.
      eexists _, _. split; [reflexivity|]. simpl. rewrite length_app. simpl.
      split; [lia | exact I].
    + destruct (failed_attempt_step sheet name m attempt rest w Hans)
        as (w1 & Hstep & _ & Hreq).
      destruct (IH w1) as (r & w' & Hrun & Hlen & Hr).
      rewrite Hreq, length_app in Hlen. simpl in Hlen.
      exists r, w'. split; [now rewrite Hstep|]. split; [lia|].
      destruct r as [data|]; [|exact I].
      destruct Hr as (n & Hn & Hsheet). rewrite Hreq, length_app in Hn. simpl in Hn.
      exists n. split; [lia | exact Hsheet].
Qed.

(** ** load_sensor_data *)

(** The world once [load_sensor_data] was entered with two names. *)
Lemma DataCache_get_entered key loc_name booth_name w :
  DataCache_get key (snd (enter_load loc_name booth_name w)) =
    (fst (DataCache_get key w),
     snd (enter_load loc_name booth_name (snd (DataCache_get key w)))).
Proof.
  unfold DataCache_get. simpl.
  destruct (cache w !! key) as [item|]; [|reflexivity].
  destruct (Qltb _ _); reflexivity.
Qed.

Lemma load_hit L sp loc booth w df :
  fst (DataCache_get (cache_key_of loc booth) w) = Ok (Some df) ->
  load_sensor_data L sp (PStr loc) (PStr booth) w =
    (Ok (Some df), snd (enter_load (PStr loc) (PStr booth) w)).
Proof.
  intros Hget. unfold load_sensor_data, bind. simpl.
  fold (cache_key_of loc booth).
  pose proof (DataCache_get_entered (cache_key_of loc booth) (PStr loc) (PStr booth) w) as He.
  simpl in He. rewrite He, Hget.
  destruct (DataCache_get_cases (cache_key_of loc booth) w) as [(item & _ & Hc) | Hc];
    rewrite Hc in *; [reflexivity | discriminate].
Qed.

(** On a miss the load goes on, in the world [get] left, with STEP 2 to 5. *)
Lemma load_miss L sp loc booth w :
  fst (DataCache_get (cache_key_of loc booth) w) = Ok None ->
  load_sensor_data L sp (PStr loc) (PStr booth) w =
    match sp with
    | None =>
        (logger ErrNoConnection;;; df <- create_dummy_data L;; ret (Some df))
    | Some _ =>
        (data <- fetch_worksheet_with_retry sp (cache_key_of loc booth) 3;;
         match data with
         | None => logger (WarnCouldNotFetch (cache_key_of loc booth));;; ret None
         | Some data =>
             if match data with [] => true | _ => DataFrame_empty data end
             then ret None
             else DataCache_set (cache_key_of loc booth) (normalize L data);;;
                  logger (InfoLoadedAndCached (cache_key_of loc booth));;;
                  ret (Some (normalize L data))
         end)
    end (snd (enter_load (PStr loc) (PStr booth)
                (snd (DataCache_get (cache_key_of loc booth) w)))).
Proof.
  intros Hget. unfold load_sensor_data. unfold bind at 1 2 3 4. simpl.
  fold (cache_key_of loc booth).
  pose proof (DataCache_get_entered (cache_key_of loc booth) (PStr loc) (PStr booth) w) as He.
  simpl in He. rewrite He, Hget. destruct sp; reflexivity.
Qed.

Lemma DataCache_get_miss_cache key w :
  fst (DataCache_get key w) = Ok None ->
  cache (snd (DataCache_get key w)) =
    match cache w !! key with Some _ => delete key (cache w) | None => cache w end
  /\ requests (snd (DataCache_get key w)) = requests w
  /\ cache (snd (DataCache_get key w)) !! key = None.
Proof.
  intros Hget.
  destruct (DataCache_get_cases key w) as [(item & _ & Hc) | Hc]; rewrite Hc in *;
    [discriminate|]. simpl. split; [reflexivity|]. split; [reflexivity|].
  destruct (cache w !! key) eqn:Hk; [apply lookup_delete_eq | assumption].
Qed.

(** A fetch that hands over nothing ends the load with absent and leaves the
    cache as [get] left it. *)
Lemma load_fetch_none L sheet loc booth w w3 :
  fst (DataCache_get (cache_key_of loc booth) w) = Ok None ->
  fetch_worksheet_with_retry (Some sheet) (cache_key_of loc booth) 3
    (snd (enter_load (PStr loc) (PStr booth)
            (snd (DataCache_get (cache_key_of loc booth) w)))) = (Ok None, w3) ->
  exists w',
    load_sensor_data L (Some sheet) (PStr loc) (PStr booth) w = (Ok None, w') /\
    cache w' = cache w3 /\ requests w' = requests w3.
Proof.
  intros Hget Hfetch. rewrite load_miss by assumption.
  unfold bind at 1. rewrite Hfetch.
  eexists. split; [reflexivity|]. split; reflexivity.
Qed.

Lemma fetch_3 sheet name w :
  fetch_worksheet_with_retry (Some sheet) name 3 w = retry_loop sheet name 3 [0; 1; 2] w.
Proof. reflexivity. Qed.

(** A connected load that missed the cache: what the fetch handed over decides
    the result; the cache gains the cleaned series or is left as it was. *)
Lemma load_connected_miss L sheet loc booth w :
  fst (DataCache_get (cache_key_of loc booth) w) = Ok None ->
  exists r w3 res w',
    fetch_worksheet_with_retry (Some sheet) (cache_key_of loc booth) 3
      (snd (enter_load (PStr loc) (PStr booth)
              (snd (DataCache_get (cache_key_of loc booth) w)))) = (Ok r, w3) /\
    load_sensor_data L (Some sheet) (PStr loc) (PStr booth) w = (Ok res, w') /\
    cache w3 = cache (snd (DataCache_get (cache_key_of loc booth) w)) /\
    (exists more, requests w' = requests w ++ cache_key_of loc booth :: more) /\
    ((res = None /\ cache w' = cache w3) \/
     (exists data, r = Some data /\ res = Some (normalize L data) /\
        (exists n, sheet n (cache_key_of loc booth) = Records data) /\
        cache w' = <[cache_key_of loc booth :=
                       {| entry_data := normalize L data; entry_timestamp := now w3 |}]>
                     (cache w3))).
Proof.
  intros Hget. set (key := cache_key_of loc booth) in *.
  set (w2 := snd (enter_load (PStr loc) (PStr booth) (snd (DataCache_get key w)))).
  destruct (retry_loop_frame sheet key 3 [0; 1; 2] w2)
    as (r & w3 & Hrun & (Hc & _) & (asked & Hasked & Hne) & Hr).
  destruct Hne as [more Hmore]; [discriminate|]. subst asked.
  assert (Hreq2 : requests w2 = requests w).
  { unfold w2. simpl. now apply DataCache_get_miss_cache. }
  rewrite Hreq2 in Hasked.
  exists r, w3. rewrite (load_miss L (Some sheet) loc booth w Hget). fold key. fold w2.
  unfold bind at 1. rewrite fetch_3, Hrun.
  destruct r as [data|].
  - destruct Hr as [Hdata Hsheet].
    destruct (match data with [] => true | _ => DataFrame_empty data end) eqn:Hempty.
    + exists None, w3. repeat split; eauto.
    + eexists _, _. split; [reflexivity|]. split; [reflexivity|]. split; [exact Hc|].
      split; [exists more; exact Hasked|]. right. exists data. repeat split; eauto.
  - eexists _, _. split; [reflexivity|]. split; [reflexivity|]. split; [exact Hc|].
    split; [exists more; exact Hasked|]. left. split; reflexivity.
Qed.

(** C8, as the code has it.  When the fetch for a pair ends in not-found or in
    exhausted retries, the load returns absent; the fetch itself adds and
    overwrites nothing, so the cache is the one the initial lookup left: the
    cache before the call, minus the pair's own expired entry if it had one. *)
Theorem load_failed_fetch_cache (L : Lib) (sheet : Spreadsheet) (loc booth : string)
    (w : World) :
  fst (DataCache_get (cache_key_of loc booth) w) = Ok None ->
  fetch_not_found sheet (cache_key_of loc booth) (length (requests w)) \/
  fetch_exhausted sheet (cache_key_of loc booth) (length (requests w)) ->
  exists w',
    load_sensor_data L (Some sheet) (PStr loc) (PStr booth) w = (Ok None, w') /\
    cache w' = match cache w !! cache_key_of loc booth with
               | Some _ => delete (cache_key_of loc booth) (cache w)
               | None => cache w
               end.
Proof.
  intros Hget Hfail. set (key := cache_key_of loc booth) in *.
  destruct (DataCache_get_miss_cache key w Hget) as (Hcache & Hreq & _).
  set (w2 := snd (enter_load (PStr loc) (PStr booth) (snd (DataCache_get key w)))).
  assert (Hreq2 : requests w2 = requests w) by exact Hreq.
  assert (exists w3, retry_loop sheet key 3 [0; 1; 2] w2 = (Ok None, w3) /\ same_store w2 w3)
    as (w3 & Hrun & Hst & _).
  { destruct Hfail as [(k & Hk & Hans) | Hex].
    - destruct (retry_loop_answers sheet key 3 [0; 1; 2] w2 k WorksheetNotFound)
        as (w3 & Hrun & Hst & _); [exact Hk | now rewrite Hreq2 | discriminate |].
      exists w3. split; assumption.
    - destruct (retry_loop_exhausted sheet key 3 [0; 1; 2] w2) as (w3 & Hrun & Hst & _).
      { intros j Hj. rewrite Hreq2. now apply Hex. }
      exists w3. split; assumption. }
  destruct (load_fetch_none L sheet loc booth w w3 Hget) as (w' & Hload & Hc' & _).
  { fold key. fold w2. now rewrite fetch_3. }
  exists w'. split; [exact Hload|]. rewrite Hc', Hst. exact Hcache.
Qed.

Lemma load_failed_fetch_cache_witness :
  fst (DataCache_get (cache_key_of "Adelaide" "Booth A") (world_at 120)) = Ok None /\
  fetch_exhausted (always ApiError) (cache_key_of "Adelaide" "Booth A")
    (length (requests (world_at 120))) /\
  exists w',
    load_sensor_data demo_lib (Some (always ApiError))
      (PStr "Adelaide") (PStr "Booth A") (world_at 120) = (Ok None, w') /\
    cache w' = ∅.
Proof.
  split; [reflexivity|]. split; [intros j _; reflexivity|].
  destruct (load_failed_fetch_cache demo_lib (always ApiError) "Adelaide" "Booth A"
              (world_at 120) eq_refl (or_intror (fun j _ => eq_refl)))
    as (w' & Hload & Hcache).
  exists w'. split; [exact Hload|]. rewrite Hcache. reflexivity.
Defined.

(** C8 as stated fails: a failed load of a pair whose entry has expired leaves
    a cache without that entry. *)
Lemma load_failed_fetch_counterexample :
  let key := cache_key_of "Adelaide" "Booth A" in
  let run := load_sensor_data demo_lib (Some (always WorksheetNotFound))
               (PStr "Adelaide") (PStr "Booth A") (world_at 120) in
  fetch_not_found (always WorksheetNotFound) key (length (requests (world_at 120))) /\
  fst run = Ok None /\
  cache (world_at 120) !! key = Some cached_item /\
  cache (snd run) !! key = None /\
  cache (snd run) <> cache (world_at 120).
Proof.
  split; [exists 0%nat; split; [lia | split; [intros j Hj; lia | reflexivity]]|].
  split; [reflexivity|]. split; [reflexivity|]. split; [reflexivity|].
  intros H. apply (f_equal (fun m => m !! cache_key_of "Adelaide" "Booth A")) in H.
  vm_compute in H. discriminate.
Qed.

(** C10. When the lookup finds no usable entry and the fetch succeeds with zero
    rows, or with rows that make an empty frame, the load returns absent and
    caches nothing: on a cache miss (no entry for the pair) the cache is left
    unchanged, the pair has no entry afterwards, and the next load for it asks
    the provider again. *)
Theorem load_empty_result_not_cached (L : Lib) (sheet : Spreadsheet) (loc booth : string)
    (w : World) (data : list RawRow) :
  fst (DataCache_get (cache_key_of loc booth) w) = Ok None ->
  fetch_succeeds sheet (cache_key_of loc booth) (length (requests w)) data ->
  DataFrame_empty data = true ->
  exists w',
    load_sensor_data L (Some sheet) (PStr loc) (PStr booth) w = (Ok None, w') /\
    (cache w !! cache_key_of loc booth = None -> cache w' = cache w) /\
    cache w' !! cache_key_of loc booth = None /\
    exists res w'' more,
      load_sensor_data L (Some sheet) (PStr loc) (PStr booth) w' = (Ok res, w'') /\
      requests w'' = requests w' ++ cache_key_of loc booth :: more.
Proof.
  intros Hget (k & Hlt & Hans) Hempty. set (key := cache_key_of loc booth) in *.
  destruct (DataCache_get_miss_cache key w Hget) as (Hcache & Hreq & Hgone).
  set (w2 := snd (enter_load (PStr loc) (PStr booth) (snd (DataCache_get key w)))).
  assert (Hreq2 : requests w2 = requests w) by exact Hreq.
  destruct (retry_loop_answers sheet key 3 [0; 1; 2] w2 k (Records data))
    as (w3 & Hrun & (Hc3 & _) & _); [exact Hlt | now rewrite Hreq2 | discriminate |].
  assert (exists w', load_sensor_data L (Some sheet) (PStr loc) (PStr booth) w = (Ok None, w')
                     /\ cache w' = cache w3) as (w' & Hload & Hc').
  { rewrite (load_miss L (Some sheet) loc booth w Hget). fold key. fold w2.
    unfold bind at 1. rewrite fetch_3, Hrun.
    destruct data as [|row data]; unfold rows_of; cbv beta iota.
    - eexists. split; reflexivity.
    - rewrite Hempty. exists w3. split; reflexivity. }
  assert (Hc : cache w' = cache (snd (DataCache_get key w))) by (rewrite Hc', Hc3; reflexivity).
  exists w'. split; [exact Hload|]. split; [|split].
  - intros Hk. rewrite Hc, Hcache, Hk. reflexivity.
  - rewrite Hc. exact Hgone.
  - assert (Hget' : fst (DataCache_get key w') = Ok None).
    { rewrite DataCache_get_absent; [reflexivity | rewrite Hc; exact Hgone]. }
    destruct (load_connected_miss L sheet loc booth w' Hget')
      as (r & w3' & res & w'' & _ & Hload' & _ & (more & Hreq') & _).
    exists res, w'', more. split; assumption.
Qed.

Lemma load_empty_result_not_cached_witness :
  fst (DataCache_get (cache_key_of "Adelaide" "Booth A") empty_world) = Ok None /\
  fetch_succeeds no_rows_sheet (cache_key_of "Adelaide" "Booth A")
    (length (requests empty_world)) [] /\
  DataFrame_empty [] = true /\
  cache empty_world !! cache_key_of "Adelaide" "Booth A" = None /\
  exists w',
    load_sensor_data demo_lib (Some no_rows_sheet)
      (PStr "Adelaide") (PStr "Booth A") empty_world = (Ok None, w') /\
    cache w' = cache empty_world.
Proof.
  split; [reflexivity|].
  assert (Hs : fetch_succeeds no_rows_sheet (cache_key_of "Adelaide" "Booth A")
                 (length (requests empty_world)) []).
  { exists 0%nat. split; [lia|]. split; [intros j Hj; lia | reflexivity]. }
  split; [exact Hs|]. split; [reflexivity|]. split; [reflexivity|].
  destruct (load_empty_result_not_cached demo_lib no_rows_sheet "Adelaide" "Booth A"
              empty_world [] eq_refl Hs eq_refl) as (w' & Hload & Hsame & _).
  exists w'. split; [exact Hload | apply Hsame; reflexivity].
Defined.

(** *** Where a returned series comes from *)

Lemma cache_from_remote_delete L sp key w c :
  cache_from_remote L sp w ->
  c = match cache w !! key with Some _ => delete key (cache w) | None => cache w end ->
  forall k item, c !! k = Some item -> normalized_remote L sp (entry_data item).
Proof.
  intros Hinv -> k item Hk. destruct (cache w !! key) eqn:Hkey.
  - apply lookup_delete_Some in Hk as [_ Hk]. eapply Hinv; eassumption.
  - eapply Hinv; eassumption.
Qed.

(** C1, as the code has it.  For every pair of names the load returns without
    raising.  With a connected spreadsheet the result is absent or a series
    normalised from rows the provider answered (now, or earlier and cached);
    with no connection the load falls back on [create_dummy_data] and returns
    its 24 generated rows, which come from no provider.  Cached series stay
    provider-made throughout. *)
Theorem load_sensor_data_result (L : Lib) (sp : option Spreadsheet) (loc booth : string)
    (w : World) :
  cache_from_remote L sp w ->
  exists res w',
    load_sensor_data L sp (PStr loc) (PStr booth) w = (Ok res, w') /\
    cache_from_remote L sp w' /\
    match sp, res with
    | Some _, None => True
    | Some _, Some df => normalized_remote L sp df
    | None, Some df =>
        df = dummy_row L (draws w) (datetime_now L (now w)) <$> seq 0 24 /\
        requests w' = requests w
    | None, None => False
    end.
Proof.
  intros Hinv. set (key := cache_key_of loc booth).
  destruct (DataCache_get_cases key w) as [(item & Hk & Hc) | Hc].
  - (* a fresh entry *)
    exists (Some (entry_data item)), (snd (enter_load (PStr loc) (PStr booth) w)).
    split; [apply load_hit; fold key; now rewrite Hc|]. split; [exact Hinv|].
    pose proof (Hinv key item Hk) as Hrem. destruct sp; [exact Hrem|].
    destruct Hrem as (sheet & ? & ? & ? & Hsp & _). discriminate.
  - assert (Hget : fst (DataCache_get key w) = Ok None) by now rewrite Hc.
    destruct (DataCache_get_miss_cache key w Hget) as (Hcache & Hreq & _).
    pose proof (cache_from_remote_delete L sp key w _ Hinv Hcache) as Hinv2.
    destruct sp as [sheet|].
    + destruct (load_connected_miss L sheet loc booth w Hget)
        as (r & w3 & res & w' & _ & Hload & Hc3 & _ & Hres).
      exists res, w'. split; [exact Hload|].
      destruct Hres as [[-> Hc'] | (data & _ & -> & (n & Hn) & Hc')].
      * split; [|exact I]. intros k item Hk. rewrite Hc', Hc3 in Hk. eauto.
      * assert (Hnew : normalized_remote L (Some sheet) (normalize L data)).
        { exists sheet, n, key, data. repeat split; assumption. }
        split; [|exact Hnew]. intros k item Hk. rewrite Hc' in Hk.
        apply lookup_insert_Some in Hk as [[_ <-] | [_ Hk]]; [exact Hnew|].
        rewrite Hc3 in Hk. eauto.
    + rewrite (load_miss L None loc booth w Hget). fold key.
      rewrite Hc. simpl.
      eexists _, _. split; [reflexivity|]. simpl. split; [|split; reflexivity].
      intros k item Hk. apply (Hinv2 k item). rewrite Hc. exact Hk.
Qed.

Lemma load_sensor_data_result_witness :
  cache_from_remote demo_lib (Some (always WorksheetNotFound)) empty_world /\
  exists res w',
    load_sensor_data demo_lib (Some (always WorksheetNotFound))
      (PStr "Adelaide") (PStr "Booth A") empty_world = (Ok res, w').
Proof.
  assert (Hinv : cache_from_remote demo_lib (Some (always WorksheetNotFound))
                   empty_world).
  { intros k item Hk. simpl in Hk. rewrite lookup_empty in Hk. discriminate. }
  split; [exact Hinv|].
  destruct (load_sensor_data_result demo_lib (Some (always WorksheetNotFound))
              "Adelaide" "Booth A" empty_world Hinv) as (res & w' & Hload & _).
  exists res, w'. exact Hload.
Defined.

(** C1 as stated fails: with no connection and nothing cached, the load asks no
    provider and still returns a series, the 24 dummy rows. *)
Lemma load_offline_counterexample :
  let run := load_sensor_data demo_lib None (PStr "Adelaide") (PStr "Booth A")
               empty_world in
  (exists df, fst run = Ok (Some df) /\ length df = 24%nat /\
              ~ normalized_remote demo_lib None df) /\
  requests (snd run) = [] /\
  logs (snd run) = [ErrNoConnection].
Proof.
  split; [|split; reflexivity].
  eexists. split; [reflexivity|]. split; [reflexivity|].
  intros (sheet & ? & ? & ? & Hsp & _). discriminate.
Qed.

(** ** The refresh sweep *)

(** With two strings for names the load returns, whatever the connection and
    whatever the provider answers. *)
Lemma load_str_returns L sp loc booth w :
  exists res w',
    load_sensor_data L sp (PStr loc) (PStr booth) w = (Ok res, w') /\
    loads w' = loads w ++ [(PStr loc, PStr booth)].
Proof.
  set (key := cache_key_of loc booth).
  destruct (DataCache_get_cases key w) as [(item & Hk & Hc) | Hc].
  - eexists _, _. split; [apply load_hit; fold key; now rewrite Hc|]. reflexivity.
  - assert (Hget : fst (DataCache_get key w) = Ok None) by now rewrite Hc.
    rewrite (load_miss L sp loc booth w Hget). fold key.
    set (w2 := snd (enter_load (PStr loc) (PStr booth) (snd (DataCache_get key w)))).
    assert (Hl2 : loads w2 = loads w ++ [(PStr loc, PStr booth)]).
    { unfold w2. rewrite Hc. reflexivity. }
    destruct sp as [sheet|].
    + destruct (retry_loop_frame sheet key 3 [0; 1; 2] w2)
        as (r & w3 & Hrun & (_ & _ & Hl3 & _) & _).
      unfold bind at 1. rewrite fetch_3, Hrun.
      destruct r as [data|].
      * destruct (match data with [] => true | _ => DataFrame_empty data end).
        -- eexists _, _. split; [reflexivity|]. congruence.
        -- eexists _, _. split; [reflexivity|]. simpl. congruence.
      * eexists _, _. split; [reflexivity|]. simpl. congruence.
    + eexists _, _. split; [reflexivity|]. exact Hl2.
Qed.

(** With a name that is not a string the load raises before it looks anything
    up. *)
Lemma load_non_str_raises L sp loc_name booth_name w :
  is_str loc_name && is_str booth_name = false ->
  load_sensor_data L sp loc_name booth_name w =
    (Raise AttributeError, snd (enter_load loc_name booth_name w)).
Proof.
  intros H. unfold load_sensor_data, bind. simpl.
  destruct loc_name; try reflexivity. destruct booth_name; try reflexivity.
  discriminate.
Qed.

Lemma sweep_body_loads L sp df_clients : forall w,
  exists r w',
    for_each df_clients (fun row =>
      load_sensor_data L sp (location row) (booth row);;; time_sleep (1 # 2)) w = (r, w') /\
    loads w' = loads w ++ attempted df_clients /\
    r = if forallb names_are_str df_clients then Ok tt else Raise AttributeError.
Proof.
  induction df_clients as [|row rest IH]; intros w.
  - exists (Ok tt), w. simpl. rewrite app_nil_r. repeat split.
  - simpl. unfold bind at 1 2.
    destruct (names_are_str row) eqn:Hstr.
    + unfold names_are_str in Hstr. apply andb_true_iff in Hstr as [Hl Hb].
      destruct (location row) as [loc| | |] eqn:Hloc; try discriminate.
      destruct (booth row) as [bth| | |] eqn:Hbooth; try discriminate.
      destruct (load_str_returns L sp loc bth w) as (res & w1 & Hload & Hl1).
      rewrite Hload. cbv beta iota.
      destruct (IH (snd (time_sleep (1 # 2) w1))) as (r & w' & Hrun & Hl' & Hr).
      exists r, w'. split; [exact Hrun|]. split; [|exact Hr].
      rewrite Hl'. simpl. rewrite Hl1, <- app_assoc. unfold roster_key.
      rewrite Hloc, Hbooth. reflexivity.
    + rewrite (load_non_str_raises L sp _ _ w Hstr).
      eexists _, _. split; [reflexivity|]. split; reflexivity.
Qed.

Lemma attempted_all df_clients :
  forallb names_are_str df_clients = true -> attempted df_clients = roster_key <$> df_clients.
Proof.
  induction df_clients as [|row rest IH]; [reflexivity|]. simpl.
  intros [Hrow Hrest]%andb_true_iff. rewrite Hrow, IH by assumption. reflexivity.
Qed.

(** C5, as the code has it.  One sweep returns and attempts a load for every
    roster pair up to and including the first whose load raises; a load that
    returns absent stops nothing, so with string names all through the roster
    every pair is attempted, whatever the provider answers.  An exception is
    caught around the whole loop: it ends the sweep, and the pairs after it
    are not attempted. *)
Theorem refresh_all_booths_attempts (L : Lib) (sp : option Spreadsheet)
    (df_clients : list ClientRow) (w : World) :
  exists w',
    refresh_all_booths L sp df_clients w = (Ok tt, w') /\
    loads w' = loads w ++ attempted df_clients /\
    (forallb names_are_str df_clients = true ->
     loads w' = loads w ++ (roster_key <$> df_clients)).
Proof.
  unfold refresh_all_booths.
  destruct (sweep_body_loads L sp df_clients (snd (logger InfoRefreshing w)))
    as (r & w1 & Hrun & Hl & Hr).
  set (loop := for_each df_clients _) in *.
  unfold bind, try_except. change (logger InfoRefreshing w) with
    (Ok tt, snd (logger InfoRefreshing w)). cbv beta iota. rewrite Hrun.
  assert (exists w', (match r with
                      | Ok _ => logger InfoRefreshCompleted w1
                      | Raise e => logger ErrRefresh w1
                      end) = (Ok tt, w') /\ loads w' = loads w1) as (w' & Hfin & Hl').
  { destruct r; eexists; split; reflexivity. }
  exists w'. split.
  - destruct r as [[]|e]; simpl in Hfin |- *; exact Hfin.
  - rewrite Hl', Hl. simpl. split; [reflexivity|].
    intros Hall. now rewrite attempted_all.
Qed.

Lemma refresh_all_booths_attempts_witness :
  forallb names_are_str roster_of_names = true /\
  loads (snd (refresh_all_booths demo_lib (Some (always ApiError)) roster_of_names
                empty_world))
    = [ (PStr "Adelaide", PStr "Booth A"); (PStr "Adelaide", PStr "Booth B") ].
Proof.
  split; [reflexivity|].
  destruct (refresh_all_booths_attempts demo_lib (Some (always ApiError))
              roster_of_names empty_world) as (w' & Hrun & _ & Hall).
  rewrite Hrun. simpl. rewrite Hall; reflexivity.
Defined.

(** C5 as stated fails: the load of a row with a blank location raises, the
    sweep ends there, and the next row is never attempted. *)
Lemma refresh_sweep_counterexample :
  let w' := snd (refresh_all_booths demo_lib (Some (always WorksheetNotFound))
                   roster_with_blank empty_world) in
  loads w' = [(PNaN, PStr "Booth A")] /\
  loads w' <> roster_key <$> roster_with_blank /\
  requests w' = [] /\
  logs w' = [InfoRefreshing; ErrRefresh].
Proof.
  split; [reflexivity|]. split; [discriminate|]. split; reflexivity.
Qed.

(** ** Cleaning and sorting *)

Section Indexing.
Context {A : Type}.
Implicit Types xs : list A.

(** Reading a list through the identity indexer gives the list back. *)
Lemma omap_lookup_seq_app pre xs :
  omap (fun i => (pre ++ xs) !! i) (seq (length pre) (length xs)) = xs.
Proof.
  revert pre. induction xs as [|x xs IH]; intros pre; [reflexivity|].
  simpl. rewrite list_lookup_middle by reflexivity. f_equal.
  specialize (IH (pre ++ [x])). rewrite <- app_assoc, length_snoc in IH.
  exact IH.
Qed.

Lemma omap_lookup_seq xs : omap (fun i => xs !! i) (seq 0 (length xs)) = xs.
Proof. exact (omap_lookup_seq_app [] xs). Qed.

(** Reading a list through a permutation of its positions permutes it. *)
Lemma omap_lookup_perm xs (indexer : list nat) :
  indexer ≡ₚ seq 0 (length xs) -> omap (fun i => xs !! i) indexer ≡ₚ xs.
Proof. intros ->. now rewrite omap_lookup_seq. Qed.

Lemma elem_of_omap_lookup xs (indexer : list nat) x :
  x ∈ omap (fun i => xs !! i) indexer -> x ∈ xs.
Proof.
  intros (i & _ & Hi)%list_elem_of_omap. eapply list_elem_of_lookup_2, Hi.
Qed.

Lemma filter_split (f : A -> bool) xs :
  filter (fun x => f x = true) xs ++ filter (fun x => f x = false) xs ≡ₚ xs.
Proof.
  induction xs as [|x xs IH]; [reflexivity|].
  rewrite !filter_cons. destruct (f x) eqn:Hf.
  - rewrite decide_True, decide_False by congruence. simpl. now rewrite IH.
  - rewrite decide_False, decide_True by congruence.
    rewrite <- Permutation_middle. now rewrite IH.
Qed.

Lemma filter_none (P : A -> Prop) `{forall x, Decision (P x)} xs :
  (forall x, x ∈ xs -> ~ P x) -> filter P xs = [].
Proof.
  induction xs as [|x xs IH]; intros Hall; [reflexivity|].
  rewrite filter_cons_False by (apply Hall; left).
  apply IH. intros y Hy. apply Hall. now right.
Qed.

Lemma filter_all (P : A -> Prop) `{forall x, Decision (P x)} xs :
  (forall x, x ∈ xs -> P x) -> filter P xs = xs.
Proof.
  induction xs as [|x xs IH]; intros Hall; [reflexivity|].
  rewrite filter_cons_True by (apply Hall; left). f_equal.
  apply IH. intros y Hy. apply Hall. now right.
Qed.

Lemma StronglySorted_pullback {B} (f : A -> B) (R : relation B) xs :
  StronglySorted R (f <$> xs) -> StronglySorted (fun a b => R (f a) (f b)) xs.
Proof.
  induction xs as [|x xs IH]; intros Hs; [constructor|].
  rewrite fmap_cons in Hs. apply StronglySorted_cons in Hs as [Hall Hs].
  constructor; [auto|]. rewrite Forall_fmap in Hall. exact Hall.
Qed.
End Indexing.

Lemma ts_le_trans a b c : ts_le a b = true -> ts_le b c = true -> ts_le a c = true.
Proof.
  destruct a, b, c; simpl; try congruence. rewrite !Z.leb_le. lia.
Qed.

Lemma has_timestamp_keys (df : DataFrame) :
  (forall r, r ∈ df -> has_timestamp r = true) ->
  Some <$> omap timestamp df = timestamp <$> df.
Proof.
  induction df as [|r df IH]; intros Hall; [reflexivity|].
  assert (Hr : has_timestamp r = true) by (apply Hall; left).
  unfold has_timestamp in Hr. simpl. destruct (timestamp r) eqn:Ht; [|discriminate].
  simpl. f_equal. apply IH. intros y Hy. apply Hall. now right.
Qed.

Lemma has_timestamp_key_lookup (df : DataFrame) (i : nat) :
  (forall r, r ∈ df -> has_timestamp r = true) ->
  omap timestamp df !! i = df !! i ≫= timestamp.
Proof.
  intros Hall.
  assert (H : (Some <$> omap timestamp df) !! i = (timestamp <$> df) !! i)
    by now rewrite has_timestamp_keys.
  rewrite !list_lookup_fmap in H.
  destruct (omap timestamp df !! i) as [t|], (df !! i) as [r|] eqn:Hr;
    simpl in *; congruence.
Qed.

(** The timestamps read through an indexer are the keys read through it. *)
Lemma timestamps_through_indexer (df : DataFrame) (indexer : list nat) :
  (forall r, r ∈ df -> has_timestamp r = true) ->
  timestamp <$> omap (fun i => df !! i) indexer =
    Some <$> take_keys (omap timestamp df) indexer.
Proof.
  intros Hall. unfold take_keys.
  induction indexer as [|i indexer IH]; [reflexivity|].
  csimpl. rewrite (has_timestamp_key_lookup df i Hall).
  destruct (df !! i) as [r|] eqn:Hr; csimpl; [|exact IH].
  assert (Hts : has_timestamp r = true) by (eapply Hall, list_elem_of_lookup_2, Hr).
  unfold has_timestamp in Hts. destruct (timestamp r) as [t|] eqn:Ht; [|discriminate].
  csimpl. rewrite IH. reflexivity.
Qed.

Section Sorting.
Context (L : Lib) (HL : LibOk L).

Lemma clean_length data : length (clean L data) = length data.
Proof.
  unfold clean. rewrite length_zip_with_l_eq; [reflexivity|].
  now rewrite (to_datetime_length L HL), length_fmap.
Qed.

Lemma dated_rows_have_timestamp (df : DataFrame) r :
  r ∈ filter (fun r => has_timestamp r = true) df -> has_timestamp r = true.
Proof. now intros [H _]%list_elem_of_filter. Qed.

(** The dated rows, reordered by argsort, are the dated rows. *)
Lemma sorted_part_perm (df : DataFrame) :
  let non_nans := filter (fun r => has_timestamp r = true) df in
  omap (fun i => non_nans !! i) (argsort L (omap timestamp non_nans)) ≡ₚ non_nans.
Proof.
  intros non_nans. apply omap_lookup_perm.
  rewrite (argsort_perm L HL).
  assert (Hlen : length (omap timestamp non_nans) = length non_nans).
  { rewrite <- (length_fmap Some (omap timestamp non_nans)),
      (has_timestamp_keys non_nans (dated_rows_have_timestamp df)).
    apply length_fmap. }
  now rewrite Hlen.
Qed.

Lemma sort_values_perm (df : DataFrame) : sort_values_by_timestamp L df ≡ₚ df.
Proof.
  unfold sort_values_by_timestamp. rewrite sorted_part_perm.
  apply (filter_split has_timestamp).
Qed.

Lemma sort_values_ascending (df : DataFrame) :
  StronglySorted ascending (sort_values_by_timestamp L df).
Proof.
  unfold sort_values_by_timestamp.
  set (non_nans := filter (fun r => has_timestamp r = true) df).
  set (nans := filter (fun r => has_timestamp r = false) df).
  assert (Hnans : forall r, r ∈ nans -> timestamp r = None).
  { intros r [H _]%list_elem_of_filter. unfold has_timestamp in H.
    destruct (timestamp r); [discriminate | reflexivity]. }
  apply StronglySorted_app_2.
  - intros r1 r2 _ H2. unfold ascending. rewrite (Hnans r2 H2).
    destruct (timestamp r1); reflexivity.
  - apply (StronglySorted_pullback timestamp (fun a b => ts_le a b = true)).
    rewrite (timestamps_through_indexer non_nans _ (dated_rows_have_timestamp df)).
    apply (StronglySorted_fmap _ Z.le).
    + intros x y Hxy. simpl. now apply Z.leb_le.
    + apply Sorted_StronglySorted; [apply _|]. apply (argsort_sorted L HL).
  - apply (StronglySorted_pullback timestamp (fun a b => ts_le a b = true)).
    assert (Hall : Forall (fun t => t = None) (timestamp <$> nans)).
    { rewrite Forall_fmap. apply Forall_forall. exact Hnans. }
    induction Hall as [|t ts Ht Hts IH]; constructor; [exact IH|].
    eapply Forall_impl; [exact Hts|]. intros t' ->. destruct t; reflexivity.
Qed.

(** The rows without a timestamp come out in the order they came in. *)
Lemma sort_values_undated (df : DataFrame) :
  filter (fun r => has_timestamp r = false) (sort_values_by_timestamp L df) =
  filter (fun r => has_timestamp r = false) df.
Proof.
  unfold sort_values_by_timestamp. rewrite filter_app.
  rewrite filter_none, filter_all; [reflexivity| |].
  - now intros r [H _]%list_elem_of_filter.
  - intros r Hr%elem_of_omap_lookup%dated_rows_have_timestamp. congruence.
Qed.
End Sorting.

(** *** The argsort instances meet the contract *)

#[global] Instance key_pos_le_total : Total key_pos_le.
Proof. intros [k1 i1] [k2 i2]. unfold key_pos_le. simpl. lia. Qed.

Lemma zip_positions (ks : list Z) (p : Z * nat) :
  p ∈ zip ks (seq 0 (length ks)) -> ks !! p.2 = Some p.1.
Proof.
  intros (i & k & j & -> & Hk & Hj)%elem_of_lookup_zip_with.
  apply lookup_seq in Hj as [-> _]. exact Hk.
Qed.

Lemma take_keys_pairs (ks : list Z) (s : list (Z * nat)) :
  (forall p, p ∈ s -> ks !! p.2 = Some p.1) -> take_keys ks (s.*2) = s.*1.
Proof.
  unfold take_keys. induction s as [|p s IH]; intros Hall; [reflexivity|].
  csimpl. rewrite (Hall p) by left. csimpl. f_equal.
  apply IH. intros q Hq. apply Hall. now right.
Qed.

Lemma argsort_by_merge_perm ks : argsort_by_merge ks ≡ₚ seq 0 (length ks).
Proof.
  unfold argsort_by_merge. rewrite merge_sort_Permutation.
  rewrite snd_zip; [reflexivity|]. now rewrite length_seq.
Qed.

Lemma argsort_by_merge_sorted ks : Sorted Z.le (take_keys ks (argsort_by_merge ks)).
Proof.
  unfold argsort_by_merge.
  set (s := merge_sort key_pos_le (zip ks (seq 0 (length ks)))).
  rewrite take_keys_pairs.
  - apply (Sorted_fmap _ key_pos_le); [|apply Sorted_merge_sort; apply _].
    intros [k1 i1] [k2 i2]. unfold key_pos_le. simpl. lia.
  - intros p Hp. apply zip_positions.
    unfold s in Hp. now rewrite merge_sort_Permutation in Hp.
Qed.

Lemma argsort_checked_sorts candidate ks :
  argsort_checked candidate ks ≡ₚ seq 0 (length ks) /\
  Sorted Z.le (take_keys ks (argsort_checked candidate ks)).
Proof.
  unfold argsort_checked. destruct (decide (sorts ks (candidate ks))) as [[Hp Hs]|_].
  - split; [|exact Hs]. rewrite <- Hp. symmetry. apply merge_sort_Permutation.
  - split; [apply argsort_by_merge_perm | apply argsort_by_merge_sorted].
Qed.

Lemma lib_with_argsort_ok f :
  (forall ks, f ks ≡ₚ seq 0 (length ks)) ->
  (forall ks, Sorted Z.le (take_keys ks (f ks))) ->
  LibOk (lib_with_argsort f).
Proof.
  intros Hperm Hsorted. split; simpl; [|exact Hperm | exact Hsorted].
  intros col. apply length_fmap.
Qed.

Lemma demo_lib_ok : LibOk demo_lib.
Proof.
  apply lib_with_argsort_ok; [apply argsort_by_merge_perm | apply argsort_by_merge_sorted].
Qed.

Lemma introsort_lib_ok : LibOk introsort_lib.
Proof. apply lib_with_argsort_ok; intros ks; apply argsort_checked_sorts. Qed.

(** *** Normalisation *)

(** C4, as the code has it.  For every list of raw rows, whatever is missing or
    unparseable in them, normalisation is defined (it raises nothing) and
    returns the cleaned rows, one per input row, rearranged so that timestamps
    ascend with the undefined ones last; the rows with an undefined timestamp
    keep their arrival order.  The order among rows of equal timestamp is left
    to the default (quicksort) argsort and is not promised. *)
Theorem normalize_sorted (L : Lib) (data : list RawRow) :
  LibOk L ->
  normalize L data ≡ₚ clean L data /\
  length (normalize L data) = length data /\
  StronglySorted ascending (normalize L data) /\
  filter (fun r => has_timestamp r = false) (normalize L data) =
    filter (fun r => has_timestamp r = false) (clean L data).
Proof.
  intros HL. unfold normalize. split; [|split; [|split]].
  - now apply sort_values_perm.
  - rewrite (sort_values_perm L HL). now apply clean_length.
  - now apply sort_values_ascending.
  - now apply sort_values_undated.
Qed.

Lemma normalize_sorted_witness :
  LibOk demo_lib /\
  length (normalize demo_lib garbled_rows) = 3%nat /\
  timestamp <$> normalize demo_lib garbled_rows = [Some 3; Some 9; None] /\
  normalize demo_lib garbled_rows = stable_sort_by_timestamp (clean demo_lib garbled_rows).
Proof.
  split; [apply demo_lib_ok|].
  destruct (normalize_sorted demo_lib garbled_rows demo_lib_ok) as (_ & Hlen & _).
  split; [exact Hlen|]. split; reflexivity.
Defined.

(** C4 as stated fails: eighteen rows of one timestamp leave the introsort in
    another order than they arrived in (the partition step moves equal keys
    across the pivot), so the output is not the stable sort of the input. *)
Lemma normalize_stability_counterexample :
  LibOk introsort_lib /\
  timestamp <$> clean introsort_lib tied_rows = replicate 18 (Some 5) /\
  temp_c <$> clean introsort_lib tied_rows =
    (fun i => Some (inject_Z i)) <$> [0; 1; 2; 3; 4; 5; 6; 7; 8; 9; 10; 11; 12; 13; 14; 15; 16; 17] /\
  temp_c <$> normalize introsort_lib tied_rows =
    (fun i => Some (inject_Z i)) <$> [0; 15; 14; 13; 12; 11; 10; 9; 8; 7; 6; 5; 4; 3; 2; 1; 16; 17] /\
  normalize introsort_lib tied_rows <>
    stable_sort_by_timestamp (clean introsort_lib tied_rows).
Proof.
  split; [apply introsort_lib_ok|]. split; [reflexivity|]. split; [reflexivity|].
  split; [vm_compute; reflexivity|].
  intros H. apply (f_equal (fmap temp_c)) in H. vm_compute in H. discriminate.
Qed.

(** * Further properties of the code *)

(** ** DataCache: how the operations compose *)

Lemma DataCache_set_run key df w :
  DataCache_set key df w =
    (Ok tt, set_cache (<[key := {| entry_data := df; entry_timestamp := now w |}]> (cache w)) w).
Proof. reflexivity. Qed.

(** X1. What [set] stores, [get] hands back for as long as less than the TTL
    has gone by since the [set], and [is_expired] says it has not expired. *)
Theorem DataCache_set_then_get (key : string) (df : DataFrame) (w w2 : World) :
  cache w2 = cache (snd (DataCache_set key df w)) ->
  ttl w2 = ttl w ->
  (now w2 - now w < ttl w)%Q ->
  DataCache_get key w2 = (Ok (Some df), w2) /\
  DataCache_is_expired key w2 = (Ok false, w2).
Proof.
  intros Hc Ht Hage. simpl in Hc.
  assert (Hk : cache w2 !! key = Some {| entry_data := df; entry_timestamp := now w |})
    by (rewrite Hc; apply lookup_insert_eq).
  split.
  - rewrite (DataCache_get_fresh key w2 _ Hk); [reflexivity|]. simpl. now rewrite Ht.
  - unfold DataCache_is_expired. rewrite Hk. simpl. rewrite Ht.
    apply Qltb_lt in Hage. unfold Qltb in Hage. apply negb_true_iff in Hage.
    unfold Qleb. now rewrite Hage.
Qed.

Lemma DataCache_set_then_get_witness :
  fst (DataCache_get "Adelaide_BoothA"
         (snd (DataCache_set "Adelaide_BoothA" four_readings empty_world)))
    = Ok (Some four_readings).
Proof.
  destruct (DataCache_set_then_get "Adelaide_BoothA" four_readings empty_world
              (snd (DataCache_set "Adelaide_BoothA" four_readings empty_world))
              eq_refl eq_refl eq_refl) as [Hget _].
  rewrite Hget. reflexivity.
Defined.

(** X2. [set] on one key overwrites what was stored for it (the last writer
    wins) and changes nothing that [get] or [is_expired] report for another
    key. *)
Theorem DataCache_set_other_keys (key key' : string) (df df' : DataFrame) (w : World) :
  key <> key' ->
  let w1 := snd (DataCache_set key df w) in
  cache (snd (DataCache_set key df' w1)) = cache (snd (DataCache_set key df' w)) /\
  cache w1 !! key' = cache w !! key' /\
  fst (DataCache_get key' w1) = fst (DataCache_get key' w) /\
  fst (DataCache_is_expired key' w1) = fst (DataCache_is_expired key' w).
Proof.
  intros Hne w1. subst w1. simpl.
  assert (Hk : <[key := {| entry_data := df; entry_timestamp := now w |}]> (cache w) !! key'
               = cache w !! key') by now apply lookup_insert_ne.
  split; [apply insert_insert_eq|]. split; [exact Hk|]. split.
  - unfold DataCache_get. simpl. rewrite Hk.
    destruct (cache w !! key'); [|reflexivity]. destruct (Qltb _ _); reflexivity.
  - unfold DataCache_is_expired. simpl. rewrite Hk.
    destruct (cache w !! key'); reflexivity.
Qed.

Lemma DataCache_set_other_keys_witness :
  "Adelaide_BoothA" <> "Sydney_Booth1" /\
  fst (DataCache_get "Sydney_Booth1"
         (snd (DataCache_set "Adelaide_BoothA" four_readings two_entry_world)))
    = Ok (Some [no_sensors]).
Proof.
  assert (Hne : "Adelaide_BoothA" <> "Sydney_Booth1") by discriminate.
  split; [exact Hne|].
  destruct (DataCache_set_other_keys "Adelaide_BoothA" "Sydney_Booth1" four_readings
              four_readings two_entry_world Hne) as (_ & _ & Hget & _).
  rewrite Hget. reflexivity.
Defined.

(** X3. [is_expired] reads and never writes, and it answers exactly as [get]
    would: it reports a key expired precisely when [get] on the same state
    returns absent. *)
Theorem DataCache_is_expired_agrees_with_get (key : string) (w : World) :
  snd (DataCache_is_expired key w) = w /\
  exists expired,
    fst (DataCache_is_expired key w) = Ok expired /\
    (expired = true <-> fst (DataCache_get key w) = Ok None).
Proof.
  unfold DataCache_is_expired, DataCache_get.
  destruct (cache w !! key) as [item|]; simpl.
  - split; [reflexivity|]. eexists. split; [reflexivity|].
    unfold Qleb, Qltb. destruct (Qle_bool _ _); simpl; split; congruence.
  - split; [reflexivity|]. exists true. split; [reflexivity|]. split; reflexivity.
Qed.

(** X4. After [clear] no key has an entry: [get] returns absent and
    [is_expired] reports expired for every key, at any later time. *)
Theorem DataCache_clear_empties (w w2 : World) (key : string) :
  cache w2 = cache (snd (DataCache_clear w)) ->
  DataCache_get key w2 = (Ok None, w2) /\
  DataCache_is_expired key w2 = (Ok true, w2).
Proof.
  intros Hc. simpl in Hc.
  assert (Hk : cache w2 !! key = None) by (rewrite Hc; apply lookup_empty).
  split; [now apply DataCache_get_absent|].
  unfold DataCache_is_expired. now rewrite Hk.
Qed.

Lemma DataCache_clear_empties_witness :
  fst (DataCache_get "Adelaide_BoothA" (snd (DataCache_clear two_entry_world))) = Ok None.
Proof.
  destruct (DataCache_clear_empties two_entry_world (snd (DataCache_clear two_entry_world))
              "Adelaide_BoothA" eq_refl) as [Hget _].
  rewrite Hget. reflexivity.
Defined.

(** X5. [get] never raises, never adds or rewrites an entry, and leaves every
    other key's entry as it was: all it can do to the cache is drop the entry
    of the key it was asked for. *)
Theorem DataCache_get_frame (key : string) (w : World) :
  exists res w',
    DataCache_get key w = (Ok res, w') /\
    cache w' ⊆ cache w /\
    (forall key', key' <> key -> cache w' !! key' = cache w !! key') /\
    requests w' = requests w /\ sleeps w' = sleeps w /\ now w' = now w.
Proof.
  destruct (DataCache_get_cases key w) as [(item & Hk & Hc) | Hc]; rewrite Hc.
  - eexists _, _. split; [reflexivity|]. repeat split; reflexivity.
  - eexists _, _. split; [reflexivity|]. simpl.
    destruct (cache w !! key) eqn:Hk.
    + split; [apply delete_subseteq|]. split; [|repeat split].
      intros key' Hne. now apply lookup_delete_ne.
    + repeat split; reflexivity.
Qed.

(** ** fetch_worksheet_with_retry: success and bounds *)

(** X6. When the provider answers non-empty rows after [k] transient failures
    ([k] below 3), the fetch returns exactly those rows, having asked [k + 1]
    times and waited [2 ^ j] after each failed attempt [j]; the cache is not
    touched. *)
Theorem fetch_success_after_retries (sheet : Spreadsheet) (worksheet_name : string)
    (w : World) (k : nat) (data : list RawRow) :
  (k < 3)%nat ->
  answers_after sheet worksheet_name (length (requests w)) k (Records data) ->
  data <> [] ->
  exists w',
    fetch_worksheet_with_retry (Some sheet) worksheet_name 3 w = (Ok (Some data), w') /\
    requests w' = requests w ++ replicate (S k) worksheet_name /\
    sleeps w' = sleeps w ++ ((fun j => inject_Z (2 ^ Z.of_nat j)) <$> seq 0 k) /\
    cache w' = cache w.
Proof.
  intros Hk [Hfail Hans] Hdata.
  assert (H0 : (0 < k)%nat -> sheet (length (requests w)) worksheet_name = ApiError).
  { intros H. rewrite <- (Hfail 0%nat H). f_equal. lia. }
  assert (H1 : (1 < k)%nat -> sheet (S (length (requests w))) worksheet_name = ApiError).
  { intros H. rewrite <- (Hfail 1%nat H). f_equal. lia. }
  unfold fetch_worksheet_with_retry. simpl.
  destruct data as [|row data]; [congruence|].
  destruct k as [|[|[|k]]]; [| | |lia].
  - rewrite Nat.add_0_r in Hans.
    unfold bind, request. rewrite Hans. simpl.
    eexists. split; [reflexivity|]. simpl. rewrite app_nil_r. repeat split.
  - replace (length (requests w) + 1)%nat with (S (length (requests w))) in Hans by lia.
    unfold bind, request, logger, time_sleep, ret. simpl.
    rewrite H0 by lia. simpl. rewrite length_snoc, Hans.
    eexists. split; [reflexivity|]. simpl. rewrite <- !app_assoc. repeat split.
  - replace (length (requests w) + 2)%nat with (S (S (length (requests w)))) in Hans by lia.
    unfold bind, request, logger, time_sleep, ret. simpl.
    rewrite H0 by lia. simpl. rewrite length_snoc, H1 by lia. simpl.
    rewrite !length_snoc, Hans.
    eexists. split; [reflexivity|]. simpl. rewrite <- !app_assoc. repeat split.
Qed.

Lemma fetch_success_after_retries_witness :
  (1 < 3)%nat /\
  answers_after flaky_sheet "Adelaide_BoothA" (length (requests empty_world)) 1
    (Records tied_rows) /\
  tied_rows <> [] /\
  exists w',
    fetch_worksheet_with_retry (Some flaky_sheet) "Adelaide_BoothA" 3 empty_world
      = (Ok (Some tied_rows), w') /\
    length (requests w') = 2%nat /\ sleeps w' = [1%Q].
Proof.
  assert (Hans : answers_after flaky_sheet "Adelaide_BoothA"
                   (length (requests empty_world)) 1 (Records tied_rows)).
  { split; [|reflexivity]. intros j Hj. assert (j = 0%nat) as -> by lia. reflexivity. }
  assert (Hne : tied_rows <> []) by discriminate.
  split; [lia|]. split; [exact Hans|]. split; [exact Hne|].
  destruct (fetch_success_after_retries flaky_sheet "Adelaide_BoothA" empty_world 1
              tied_rows ltac:(lia) Hans Hne) as (w' & Hrun & Hreq & Hsl & _).
  exists w'. split; [exact Hrun|]. split.
  - rewrite Hreq. reflexivity.
  - rewrite Hsl. reflexivity.
Defined.

(** Order facts between clock readings, by arithmetic on numerators. *)
Ltac q_order := unfold Qle, Qlt, Qplus, Qminus, Qopp; simpl; lia.

(** X7. Whatever the provider answers, one fetch returns without raising after
    at least one and at most three requests, all for the worksheet asked; it
    waits 1 and then 2 time units at most, so at most 3 in all, and leaves the
    cache alone. *)
Theorem fetch_bounded (sheet : Spreadsheet) (worksheet_name : string) (w : World) :
  exists res w' k waits,
    fetch_worksheet_with_retry (Some sheet) worksheet_name 3 w = (Ok res, w') /\
    (1 <= k <= 3)%nat /\
    requests w' = requests w ++ replicate k worksheet_name /\
    sleeps w' = sleeps w ++ waits /\
    waits `prefix_of` [1%Q; 2%Q] /\
    (now w' <= now w + 3)%Q /\
    cache w' = cache w.
Proof.
  unfold fetch_worksheet_with_retry. simpl.
  unfold bind, request, logger, time_sleep, ret. simpl.
  destruct (sheet (length (requests w)) worksheet_name) as [data| |] eqn:H0; simpl.
  - eexists _, _, 1%nat, []. split; [reflexivity|]. simpl. rewrite app_nil_r.
    repeat split; try lia; [apply prefix_nil | q_order].
  - eexists _, _, 1%nat, []. split; [reflexivity|]. simpl. rewrite app_nil_r.
    repeat split; try lia; [apply prefix_nil | q_order].
  - rewrite length_snoc.
    destruct (sheet (S (length (requests w))) worksheet_name) as [data| |] eqn:H1; simpl.
    + eexists _, _, 2%nat, [1%Q]. split; [reflexivity|]. simpl. rewrite <- !app_assoc.
      repeat split; try lia; [by exists [2%Q] | q_order].
    + eexists _, _, 2%nat, [1%Q]. split; [reflexivity|]. simpl. rewrite <- !app_assoc.
      repeat split; try lia; [by exists [2%Q] | q_order].
    + rewrite !length_snoc.
      destruct (sheet (S (S (length (requests w)))) worksheet_name) as [data| |] eqn:H2;
        simpl; eexists _, _, 3%nat, [1%Q; 2%Q]; (split; [reflexivity|]); simpl;
        rewrite <- !app_assoc; repeat split; try lia; try reflexivity; q_order.
Qed.

(** ** load_sensor_data: hits, successful loads, and what a load leaves alone *)

(** X8. With a fresh entry for the pair in the cache, the load returns the
    cached series and does nothing else: no request, no wait, no log line, no
    change to the cache; this holds with or without a connection. *)
Theorem load_fresh_entry_no_request (L : Lib) (sp : option Spreadsheet)
    (loc booth : string) (w : World) (item : CacheEntry) :
  cache w !! cache_key_of loc booth = Some item ->
  (now w - entry_timestamp item < ttl w)%Q ->
  exists w',
    load_sensor_data L sp (PStr loc) (PStr booth) w = (Ok (Some (entry_data item)), w') /\
    requests w' = requests w /\ sleeps w' = sleeps w /\ logs w' = logs w /\
    cache w' = cache w /\ draws w' = draws w.
Proof.
  intros Hk Hage. eexists. split.
  - apply load_hit. now rewrite (DataCache_get_fresh _ w item Hk Hage).
  - repeat split.
Qed.

Lemma load_fresh_entry_no_request_witness :
  cache (world_at 119) !! cache_key_of "Adelaide" "Booth A" = Some cached_item /\
  exists w',
    load_sensor_data demo_lib None (PStr "Adelaide") (PStr "Booth A") (world_at 119)
      = (Ok (Some [no_sensors]), w') /\
    requests w' = [].
Proof.
  split; [reflexivity|].
  destruct (load_fresh_entry_no_request demo_lib None "Adelaide" "Booth A" (world_at 119)
              cached_item eq_refl eq_refl) as (w' & Hload & Hreq & _).
  exists w'. split; [exact Hload | exact Hreq].
Defined.

(** A load that misses the cache and is answered rows that make a non-empty
    frame: the cleaned series is returned and stored, stamped with the clock
    reading of the moment. *)
Lemma load_success L sheet loc booth w data :
  fst (DataCache_get (cache_key_of loc booth) w) = Ok None ->
  fetch_succeeds sheet (cache_key_of loc booth) (length (requests w)) data ->
  DataFrame_empty data = false ->
  exists w',
    load_sensor_data L (Some sheet) (PStr loc) (PStr booth) w
      = (Ok (Some (normalize L data)), w') /\
    cache w' = <[cache_key_of loc booth :=
                   {| entry_data := normalize L data; entry_timestamp := now w' |}]>
                 (cache (snd (DataCache_get (cache_key_of loc booth) w))) /\
    ttl w' = ttl w /\
    exists k, (k < 3)%nat /\
      requests w' = requests w ++ replicate (S k) (cache_key_of loc booth).
Proof.
  intros Hget (k & Hlt & Hans) Hempty. set (key := cache_key_of loc booth) in *.
  destruct (DataCache_get_miss_cache key w Hget) as (Hcache & Hreq & _).
  set (w2 := snd (enter_load (PStr loc) (PStr booth) (snd (DataCache_get key w)))).
  assert (Hreq2 : requests w2 = requests w) by exact Hreq.
  assert (Httl2 : ttl w2 = ttl w).
  { unfold w2. destruct (DataCache_get_cases key w) as [(item & _ & Hc) | Hc];
      rewrite Hc; reflexivity. }
  destruct (retry_loop_answers sheet key 3 [0; 1; 2] w2 k (Records data))
    as (w3 & Hrun & (Hc3 & Httl3 & _) & Hreq3); [exact Hlt | now rewrite Hreq2 | discriminate |].
  rewrite (load_miss L (Some sheet) loc booth w Hget). fold key. fold w2.
  unfold bind at 1. rewrite fetch_3, Hrun.
  destruct data as [|row data]; [discriminate Hempty|].
  unfold rows_of. cbv beta iota. rewrite Hempty.
  eexists. split; [reflexivity|]. simpl. split; [now rewrite Hc3|].
  split; [congruence|].
  exists k. split; [exact Hlt|]. now rewrite Hreq3, Hreq2.
Qed.

(** X9. A load that misses the cache and is answered rows that make a
    non-empty frame returns their cleaned, sorted series and stores it under
    the pair's key; a second load of the pair right after it returns the very
    same series from the cache, without a request. *)
Theorem load_twice_fetches_once (L : Lib) (sheet : Spreadsheet) (loc booth : string)
    (w : World) (data : list RawRow) :
  fst (DataCache_get (cache_key_of loc booth) w) = Ok None ->
  fetch_succeeds sheet (cache_key_of loc booth) (length (requests w)) data ->
  DataFrame_empty data = false ->
  (0 < ttl w)%Q ->
  exists w' w'',
    load_sensor_data L (Some sheet) (PStr loc) (PStr booth) w
      = (Ok (Some (normalize L data)), w') /\
    (exists stamp, cache w' !! cache_key_of loc booth
                     = Some {| entry_data := normalize L data; entry_timestamp := stamp |}) /\
    load_sensor_data L (Some sheet) (PStr loc) (PStr booth) w'
      = (Ok (Some (normalize L data)), w'') /\
    requests w'' = requests w' /\
    cache w'' = cache w'.
Proof.
  intros Hget Hs Hempty Httl.
  destruct (load_success L sheet loc booth w data Hget Hs Hempty)
    as (w' & Hload & Hc & Ht & _).
  set (item := {| entry_data := normalize L data; entry_timestamp := now w' |}) in *.
  assert (Hk : cache w' !! cache_key_of loc booth = Some item)
    by (rewrite Hc; apply lookup_insert_eq).
  exists w', (snd (enter_load (PStr loc) (PStr booth) w')).
  split; [exact Hload|]. split; [exists (now w'); exact Hk|].
  split; [|split; reflexivity].
  apply load_hit. rewrite (DataCache_get_fresh _ w' item Hk); [reflexivity|].
  simpl. rewrite Ht. revert Httl. generalize (now w') (ttl w). intros a b. q_order.
Qed.

Lemma load_twice_fetches_once_witness :
  fst (DataCache_get (cache_key_of "Adelaide" "Booth A") empty_world) = Ok None /\
  fetch_succeeds flaky_sheet (cache_key_of "Adelaide" "Booth A")
    (length (requests empty_world)) tied_rows /\
  DataFrame_empty tied_rows = false /\
  (0 < ttl empty_world)%Q /\
  exists w' w'',
    load_sensor_data demo_lib (Some flaky_sheet) (PStr "Adelaide") (PStr "Booth A")
      empty_world = (Ok (Some (normalize demo_lib tied_rows)), w') /\
    load_sensor_data demo_lib (Some flaky_sheet) (PStr "Adelaide") (PStr "Booth A") w'
      = (Ok (Some (normalize demo_lib tied_rows)), w'') /\
    requests w'' = requests w'.
Proof.
  assert (Hs : fetch_succeeds flaky_sheet (cache_key_of "Adelaide" "Booth A")
                 (length (requests empty_world)) tied_rows).
  { exists 1%nat. split; [lia|]. split; [|reflexivity].
    intros j Hj. assert (j = 0%nat) as -> by lia. reflexivity. }
  split; [reflexivity|]. split; [exact Hs|]. split; [reflexivity|]. split; [reflexivity|].
  destruct (load_twice_fetches_once demo_lib flaky_sheet "Adelaide" "Booth A" empty_world
              tied_rows eq_refl Hs eq_refl eq_refl)
    as (w' & w'' & Hload & _ & Hload' & Hreq & _).
  exists w', w''. split; [exact Hload|]. split; [exact Hload' | exact Hreq].
Defined.

(** X10. An entry that has reached the TTL is never served.  With a connected
    spreadsheet the load of a pair whose entry has expired asks the provider
    for the pair's worksheet again, and what it returns comes from that fetch
    alone: either absent, the expired entry being dropped from the cache, or
    the cleaned form of rows that the provider answered to one of the requests
    of this very load, which also replace the expired entry under the time of
    the store. *)
Theorem load_expired_entry_refetches (L : Lib) (sheet : Spreadsheet) (loc booth : string)
    (w : World) (item : CacheEntry) :
  cache w !! cache_key_of loc booth = Some item ->
  (ttl w <= now w - entry_timestamp item)%Q ->
  exists res w' more,
    load_sensor_data L (Some sheet) (PStr loc) (PStr booth) w = (Ok res, w') /\
    requests w' = requests w ++ cache_key_of loc booth :: more /\
    ((res = None /\ cache w' = delete (cache_key_of loc booth) (cache w)) \/
     (exists data n,
        (length (requests w) <= n < length (requests w'))%nat /\
        sheet n (cache_key_of loc booth) = Records data /\
        res = Some (normalize L data) /\
        cache w' = <[cache_key_of loc booth :=
                       {| entry_data := normalize L data; entry_timestamp := now w' |}]>
                     (cache w))).
Proof.
  intros Hk Hage. set (key := cache_key_of loc booth) in *.
  assert (Hget : fst (DataCache_get key w) = Ok None)
    by now rewrite (DataCache_get_stale _ w item Hk Hage).
  destruct (DataCache_get_miss_cache key w Hget) as (Hcache & Hreq0 & _).
  rewrite Hk in Hcache.
  set (w2 := snd (enter_load (PStr loc) (PStr booth) (snd (DataCache_get key w)))).
  assert (Hreq2 : requests w2 = requests w) by exact Hreq0.
  assert (Hcache2 : cache w2 = delete key (cache w)) by exact Hcache.
  destruct (retry_loop_frame sheet key 3 [0; 1; 2] w2)
    as (r & w3 & Hrun & (Hc & _) & (asked & Hasked & Hne) & _).
  destruct Hne as [more Hmore]; [discriminate|]. subst asked.
  destruct (retry_loop_answer_index sheet key 3 [0; 1; 2] w2)
    as (r' & w3' & Hrun' & _ & Hr).
  rewrite Hrun in Hrun'. injection Hrun' as <- <-.
  rewrite Hreq2 in Hasked, Hr. rewrite Hcache2 in Hc.
  rewrite (load_miss L (Some sheet) loc booth w Hget). fold key. fold w2.
  unfold bind at 1. rewrite fetch_3, Hrun.
  destruct r as [data|].
  - destruct Hr as (n & Hn & Hsheet).
    destruct (match data with [] => true | _ => DataFrame_empty data end) eqn:Hempty.
    + exists None, w3, more. split; [reflexivity|]. split; [exact Hasked|].
      left. split; [reflexivity | exact Hc].
    + eexists _, _, more. split; [reflexivity|]. split; [exact Hasked|].
      right. exists data, n. split; [exact Hn|]. split; [exact Hsheet|].
      split; [reflexivity|]. simpl. rewrite Hc. apply insert_delete_eq.
  - eexists _, _, more. split; [reflexivity|]. split; [exact Hasked|].
    left. split; [reflexivity | exact Hc].
Qed.

Lemma load_expired_entry_refetches_witness :
  cache (world_at 120) !! cache_key_of "Adelaide" "Booth A" = Some cached_item /\
  (ttl (world_at 120) <= now (world_at 120) - entry_timestamp cached_item)%Q /\
  exists res w' more,
    load_sensor_data demo_lib (Some no_rows_sheet) (PStr "Adelaide") (PStr "Booth A")
      (world_at 120) = (Ok res, w') /\
    requests w' = "Adelaide_BoothA" :: more /\
    (res = None \/ exists data n, no_rows_sheet n "Adelaide_BoothA" = Records data /\
                                  res = Some (normalize demo_lib data)).
Proof.
  assert (Hage : (ttl (world_at 120) <= now (world_at 120) - entry_timestamp cached_item)%Q)
    by discriminate.
  split; [reflexivity|]. split; [exact Hage|].
  destruct (load_expired_entry_refetches demo_lib no_rows_sheet "Adelaide" "Booth A"
              (world_at 120) cached_item eq_refl Hage)
    as (res & w' & more & Hload & Hreq & Hres).
  exists res, w', more. split; [exact Hload|]. split; [exact Hreq|].
  destruct Hres as [[Hnone _] | (data & n & _ & Hsheet & Hsome & _)].
  - left. exact Hnone.
  - right. exists data, n. split; [exact Hsheet | exact Hsome].
Defined.

(** X11. A load of one pair never changes another key's entry: whatever the
    connection and whatever the provider answers, every key other than the
    pair's own has after the load the entry it had before. *)
Theorem load_leaves_other_keys (L : Lib) (sp : option Spreadsheet) (loc booth : string)
    (w : World) (key' : string) :
  key' <> cache_key_of loc booth ->
  exists res w',
    load_sensor_data L sp (PStr loc) (PStr booth) w = (Ok res, w') /\
    cache w' !! key' = cache w !! key'.
Proof.
  intros Hne. set (key := cache_key_of loc booth) in *.
  destruct (DataCache_get_cases key w) as [(item & Hk & Hc) | Hc].
  - eexists _, _. split; [apply load_hit; fold key; now rewrite Hc|]. reflexivity.
  - assert (Hget : fst (DataCache_get key w) = Ok None) by now rewrite Hc.
    destruct (DataCache_get_miss_cache key w Hget) as (Hcache & _ & _).
    assert (Hother : cache (snd (DataCache_get key w)) !! key' = cache w !! key').
    { rewrite Hcache. destruct (cache w !! key); [|reflexivity].
      now apply lookup_delete_ne. }
    destruct sp as [sheet|].
    + destruct (load_connected_miss L sheet loc booth w Hget)
        as (r & w3 & res & w' & _ & Hload & Hc3 & _ & Hres).
      exists res, w'. split; [exact Hload|].
      destruct Hres as [[_ Hc'] | (data & _ & _ & _ & Hc')]; rewrite Hc'.
      * now rewrite Hc3.
      * rewrite lookup_insert_ne by (intros E; exact (Hne (eq_sym E))). now rewrite Hc3.
    + rewrite (load_miss L None loc booth w Hget). fold key.
      eexists _, _. split; [reflexivity|]. exact Hother.
Qed.

Lemma load_leaves_other_keys_witness :
  "Sydney_Booth1" <> cache_key_of "Adelaide" "Booth A" /\
  exists res w',
    load_sensor_data demo_lib (Some flaky_sheet) (PStr "Adelaide") (PStr "Booth A")
      two_entry_world = (Ok res, w') /\
    cache w' !! "Sydney_Booth1" = Some cached_item.
Proof.
  assert (Hne : "Sydney_Booth1" <> cache_key_of "Adelaide" "Booth A") by discriminate.
  split; [exact Hne|].
  destruct (load_leaves_other_keys demo_lib (Some flaky_sheet) "Adelaide" "Booth A"
              two_entry_world "Sydney_Booth1" Hne) as (res & w' & Hload & Hc).
  exists res, w'. split; [exact Hload|]. rewrite Hc. reflexivity.
Defined.

(** X12. With no connection a load always returns a series, asks no provider,
    waits for nothing, and caches nothing: the cache only ever shrinks (by the
    pair's own expired entry), so the dummy rows are generated afresh by each
    load that finds no fresh entry. *)
Theorem load_offline_caches_nothing (L : Lib) (loc booth : string) (w : World) :
  exists df w',
    load_sensor_data L None (PStr loc) (PStr booth) w = (Ok (Some df), w') /\
    cache w' ⊆ cache w /\
    requests w' = requests w /\
    sleeps w' = sleeps w /\
    (fst (DataCache_get (cache_key_of loc booth) w) = Ok None ->
     cache w' !! cache_key_of loc booth = None /\
     draws w' = S (draws w) /\
     df = dummy_row L (draws w) (datetime_now L (now w)) <$> seq 0 24).
Proof.
  set (key := cache_key_of loc booth).
  destruct (DataCache_get_cases key w) as [(item & Hk & Hc) | Hc].
  - eexists _, _. split; [apply load_hit; fold key; now rewrite Hc|].
    simpl. repeat split; try reflexivity; rewrite Hc in H; discriminate.
  - assert (Hget : fst (DataCache_get key w) = Ok None) by now rewrite Hc.
    destruct (DataCache_get_miss_cache key w Hget) as (Hcache & Hreq & Hgone).
    rewrite (load_miss L None loc booth w Hget). fold key.
    eexists _, _. split; [reflexivity|]. rewrite Hc in *. simpl in *.
    split; [|repeat split; assumption].
    destruct (cache w !! key); [apply delete_subseteq | reflexivity].
Qed.

(** ** Strings: cache keys and the occupancy word *)

Lemma remove_spaces_app s1 s2 :
  remove_spaces (s1 +:+ s2) = remove_spaces s1 +:+ remove_spaces s2.
Proof.
  induction s1 as [|a s1 IH]; [reflexivity|].
  simpl. destruct (Ascii.eqb a " "); simpl; now rewrite IH.
Qed.

Lemma remove_spaces_idem s : remove_spaces (remove_spaces s) = remove_spaces s.
Proof.
  induction s as [|a s IH]; [reflexivity|].
  simpl. destruct (Ascii.eqb a " ") eqn:Ha; [exact IH|].
  simpl. now rewrite Ha, IH.
Qed.

Lemma string_app_assoc (s1 s2 s3 : string) : (s1 +:+ s2) +:+ s3 = s1 +:+ (s2 +:+ s3).
Proof.
  induction s1 as [|a s1 IH]; [reflexivity|].
  change (String a ((s1 +:+ s2) +:+ s3) = String a (s1 +:+ s2 +:+ s3)).
  now rewrite IH.
Qed.

(** X13. The cache key, which is also the worksheet name asked of the
    provider, does not tell apart names that differ only in spaces, nor a
    location ending in "_x" from a booth starting with "x_": such pairs share
    one cache entry and one worksheet. *)
Theorem cache_key_collisions (loc1 loc2 booth1 booth2 : string) :
  cache_key_of (loc1 +:+ " " +:+ loc2) booth1 = cache_key_of (loc1 +:+ loc2) booth1 /\
  cache_key_of loc1 (booth1 +:+ " " +:+ booth2) = cache_key_of loc1 (booth1 +:+ booth2) /\
  cache_key_of (remove_spaces loc1) (remove_spaces booth1) = cache_key_of loc1 booth1 /\
  cache_key_of (loc1 +:+ "_" +:+ loc2) booth1 = cache_key_of loc1 (loc2 +:+ "_" +:+ booth1).
Proof.
  unfold cache_key_of. split; [|split; [|split]].
  - now rewrite !remove_spaces_app.
  - now rewrite !remove_spaces_app.
  - now rewrite !remove_spaces_idem.
  - rewrite !remove_spaces_app, !string_app_assoc. reflexivity.
Qed.

Lemma rev_app_app s1 s2 acc :
  String.rev_app (s1 +:+ s2) acc = String.rev_app s2 (String.rev_app s1 acc).
Proof.
  revert acc. induction s1 as [|a s1 IH]; intros acc; [reflexivity|]. simpl. apply IH.
Qed.

Lemma lstrip_rev_app_space ws acc :
  all_space ws = true -> lstrip (String.rev_app ws acc) = lstrip acc.
Proof.
  revert acc. induction ws as [|a ws IH]; intros acc Hws; [reflexivity|].
  simpl in Hws. apply andb_true_iff in Hws as [Ha Hws].
  simpl. rewrite IH by assumption. simpl. now rewrite Ha.
Qed.

Lemma lstrip_space_app ws s : all_space ws = true -> lstrip (ws +:+ s) = lstrip s.
Proof.
  induction ws as [|a ws IH]; intros Hws; [reflexivity|].
  simpl in Hws. apply andb_true_iff in Hws as [Ha Hws].
  simpl. rewrite Ha. now apply IH.
Qed.

Lemma rstrip_app_space s ws : all_space ws = true -> rstrip (s +:+ ws) = rstrip s.
Proof.
  intros Hws. unfold rstrip, String.rev.
  now rewrite rev_app_app, lstrip_rev_app_space.
Qed.

Lemma lstrip_all_space s : all_space s = true -> lstrip s = "".
Proof.
  induction s as [|a s IH]; intros Hs; [reflexivity|].
  simpl in Hs. apply andb_true_iff in Hs as [Ha Hs]. simpl. rewrite Ha. now apply IH.
Qed.

Lemma all_space_app s1 s2 : all_space (s1 +:+ s2) = all_space s1 && all_space s2.
Proof.
  induction s1 as [|a s1 IH]; [reflexivity|]. simpl. now rewrite IH, andb_assoc.
Qed.

Lemma lstrip_app s x :
  lstrip (s +:+ x) = if all_space s then lstrip x else lstrip s +:+ x.
Proof.
  induction s as [|a s IH]; [reflexivity|].
  simpl. destruct (py_isspace a); [exact IH | reflexivity].
Qed.

(** Whitespace around a string is lost on it. *)
Lemma strip_padding ws s ws' :
  all_space ws = true -> all_space ws' = true -> strip (ws +:+ s +:+ ws') = strip s.
Proof.
  intros Hws Hws'. unfold strip.
  rewrite lstrip_space_app by assumption. rewrite lstrip_app.
  destruct (all_space s) eqn:Hs.
  - now rewrite (lstrip_all_space ws'), (lstrip_all_space s).
  - now apply rstrip_app_space.
Qed.

(** X14. The utilisation count is blind to whitespace around the state: a
    pir_state cell padded with spaces, tabs or line breaks on either side is
    counted exactly as the bare cell is. *)
Theorem pir_is_Occupied_ignores_padding (ws s ws' : string) :
  all_space ws = true ->
  all_space ws' = true ->
  pir_is_Occupied (Some (PStr (ws +:+ s +:+ ws'))) = pir_is_Occupied (Some (PStr s)).
Proof. intros Hws Hws'. simpl. now rewrite strip_padding. Qed.

Lemma pir_is_Occupied_ignores_padding_witness :
  pir_is_Occupied (Some (PStr ("  " +:+ "Occupied" +:+ " "))) = true.
Proof.
  rewrite (pir_is_Occupied_ignores_padding "  " "Occupied" " " eq_refl eq_refl).
  reflexivity.
Defined.

(** A character that lowers to a given small letter is that letter or its
    capital. *)
Ltac lower_inv :=
  let a := fresh "a" in
  intros a; destruct a as [[] [] [] [] [] [] [] []]; intros H;
  try discriminate H; auto.

Lemma py_lower_o a : py_lower a = "o"%char -> a = "o"%char \/ a = "O"%char.
Proof. revert a. lower_inv. Qed.
Lemma py_lower_c a : py_lower a = "c"%char -> a = "c"%char \/ a = "C"%char.
Proof. revert a. lower_inv. Qed.
Lemma py_lower_u a : py_lower a = "u"%char -> a = "u"%char \/ a = "U"%char.
Proof. revert a. lower_inv. Qed.
Lemma py_lower_p a : py_lower a = "p"%char -> a = "p"%char \/ a = "P"%char.
Proof. revert a. lower_inv. Qed.
Lemma py_lower_i a : py_lower a = "i"%char -> a = "i"%char \/ a = "I"%char.
Proof. revert a. lower_inv. Qed.
Lemma py_lower_e a : py_lower a = "e"%char -> a = "e"%char \/ a = "E"%char.
Proof. revert a. lower_inv. Qed.
Lemma py_lower_d a : py_lower a = "d"%char -> a = "d"%char \/ a = "D"%char.
Proof. revert a. lower_inv. Qed.

Lemma title_strip_occupied s : lower s = "occupied" -> title (strip s) = "Occupied".
Proof.
  intros H.
  destruct s as [|a1 [|a2 [|a3 [|a4 [|a5 [|a6 [|a7 [|a8 [|a9 s]]]]]]]]];
    try discriminate H.
  simpl in H. injection H as H1 H2 H3 H4 H5 H6 H7 H8.
  apply py_lower_o in H1. apply py_lower_c in H2. apply py_lower_c in H3.
  apply py_lower_u in H4. apply py_lower_p in H5. apply py_lower_i in H6.
  apply py_lower_e in H7. apply py_lower_d in H8.
  destruct H1 as [-> | ->], H2 as [-> | ->], H3 as [-> | ->], H4 as [-> | ->],
           H5 as [-> | ->], H6 as [-> | ->], H7 as [-> | ->], H8 as [-> | ->];
    reflexivity.
Qed.

(** X15. The "currently occupied" test of the dashboard accepts the word in
    any capitalisation and with any whitespace around it ("occupied",
    " OCCUPIED ", "oCCupied", ...), unlike the utilisation count, which wants
    "Occupied" letter for letter. *)
Theorem currently_occupied_any_case (latest : Reading) (ws s ws' : string) :
  pir_state latest = Some (PStr (ws +:+ s +:+ ws')) ->
  all_space ws = true ->
  all_space ws' = true ->
  lower s = "occupied" ->
  currently_occupied latest = true /\
  (pir_is_Occupied (pir_state latest) = true <-> s = "Occupied").
Proof.
  intros Hpir Hws Hws' Hs. unfold currently_occupied. rewrite Hpir.
  unfold pir_is_Occupied. rewrite strip_padding by assumption.
  assert (Hstrip : strip s = s).
  { destruct s as [|a1 [|a2 [|a3 [|a4 [|a5 [|a6 [|a7 [|a8 [|a9 s]]]]]]]]];
      try discriminate Hs.
    simpl in Hs. injection Hs as H1 _ _ _ _ _ _ H8.
    apply py_lower_o in H1. apply py_lower_d in H8.
    destruct H1 as [-> | ->], H8 as [-> | ->]; reflexivity. }
  split.
  - rewrite title_strip_occupied by assumption. reflexivity.
  - rewrite Hstrip. apply String.eqb_eq.
Qed.

Lemma currently_occupied_any_case_witness :
  currently_occupied (reading_at 2 " OCCUPIED ") = true.
Proof.
  destruct (currently_occupied_any_case (reading_at 2 " OCCUPIED ") " " "OCCUPIED" " "
              eq_refl eq_refl eq_refl eq_refl) as [H _].
  exact H.
Defined.

(** ** Bounds of the scores *)

Lemma ratio_bounds (a : Z) (n : nat) (c : Z) :
  0 <= a <= c * Z.of_nat (S n) ->
  (0 <= inject_Z a / inject_Z (Z.of_nat (S n)) /\
   inject_Z a / inject_Z (Z.of_nat (S n)) <= inject_Z c)%Q.
Proof.
  intros [Ha Hc].
  assert (Hpos : (0 < inject_Z (Z.of_nat (S n)))%Q).
  { unfold Qlt. simpl. lia. }
  split.
  - apply Qle_shift_div_l; [exact Hpos|]. rewrite Qmult_0_l.
    unfold Qle. simpl. lia.
  - apply Qle_shift_div_r; [exact Hpos|].
    rewrite <- inject_Z_mult. rewrite <- Zle_Qle. exact Hc.
Qed.

Lemma percent_bounds (part total : nat) :
  (part <= total)%nat -> (0 < total)%nat ->
  (0 <= percent part total /\ percent part total <= 100)%Q.
Proof.
  intros Hle Hpos. destruct total as [|n]; [lia|]. unfold percent.
  destruct (ratio_bounds (Z.of_nat part) n 1) as [H0 H1]; [lia|].
  split.
  - apply Qmult_le_0_compat; [exact H0 | discriminate].
  - apply Qle_trans with (inject_Z 1 * 100)%Q; [|discriminate].
    apply Qmult_le_compat_r; [exact H1 | discriminate].
Qed.

Lemma filter_length_le {A} (P : A -> Prop) `{forall x, Decision (P x)} (l : list A) :
  (length (filter P l) <= length l)%nat.
Proof. apply length_filter. Qed.

(** X16. Both utilisation figures are percentages: whatever the series and
    the range, the dashboard's temporal utilisation lies between 0 and 100, and
    so does the one of the location view whenever it reports one. *)
Theorem temporal_utilization_bounds (start_date end_date : Z)
    (start_opt end_opt : option Z) (df_booth : DataFrame) :
  (0 <= temporal_utilization start_date end_date df_booth /\
   temporal_utilization start_date end_date df_booth <= 100)%Q /\
  match location_utilization start_opt end_opt df_booth with
  | Some u => (0 <= u /\ u <= 100)%Q
  | None => True
  end.
Proof.
  split.
  - unfold temporal_utilization.
    destruct (filter _ df_booth) as [|r0 l0]; [split; discriminate|].
    destruct (dropna_pir_state (r0 :: l0)) as [|r l]; [split; discriminate|].
    change (0 <? length (r :: l))%nat with true. cbv iota.
    apply percent_bounds; [apply filter_length_le | simpl; lia].
  - unfold location_utilization.
    destruct (dropna_pir_state _) as [|r l]; [exact I|].
    change (0 <? length (r :: l))%nat with true. cbv iota.
    apply percent_bounds; [apply filter_length_le | simpl; lia].
Qed.

Lemma sum_Z_bounds (l : list Z) :
  Forall (fun s => 0 <= s <= 100) l -> 0 <= sum_Z l <= 100 * Z.of_nat (length l).
Proof.
  induction 1 as [|s l Hs _ IH]; [simpl; lia|].
  unfold sum_Z in *. cbn [foldr length]. rewrite Nat2Z.inj_succ. lia.
Qed.

Lemma scores_in_range row : Forall (fun s => 0 <= s <= 100) (scores row).
Proof.
  eapply Forall_impl; [apply scores_values|].
  intros s Hs. simpl in Hs.
  rewrite !elem_of_cons in Hs. rewrite elem_of_nil in Hs.
  destruct Hs as [-> | [-> | [-> | [-> | [-> | []]]]]]; lia.
Qed.

(** X17. The comfort score of any reading lies between 0 and 100. *)
Theorem calculate_comfort_score_bounds (row : Reading) :
  (0 <= calculate_comfort_score row /\ calculate_comfort_score row <= 100)%Q.
Proof.
  unfold calculate_comfort_score.
  pose proof (sum_Z_bounds _ (scores_in_range row)) as Hsum.
  destruct (scores row) as [|s l]; [split; discriminate|].
  apply (ratio_bounds _ (length l) 100). exact Hsum.
Qed.

(** ** Utilisation does not depend on the order of the rows *)

Lemma temporal_utilization_by_counts start_date end_date df_booth :
  temporal_utilization start_date end_date df_booth =
    let present :=
      dropna_pir_state (filter (fun r => in_range_closed start_date end_date r = true)
                          df_booth) in
    if (0 <? length present)%nat
    then percent (length (filter (fun r => pir_is_Occupied (pir_state r) = true) present))
                 (length present)
    else 0%Q.
Proof.
  unfold temporal_utilization.
  destruct (filter _ df_booth) as [|r0 l0]; [reflexivity|].
  destruct (dropna_pir_state (r0 :: l0)); reflexivity.
Qed.

Lemma location_utilization_by_counts start_date end_date df_booth :
  location_utilization start_date end_date df_booth =
    let present :=
      dropna_pir_state
        (filter (fun r => before_end end_date r = true)
           (filter (fun r => after_start start_date r = true) df_booth)) in
    if (0 <? length present)%nat
    then Some (percent
                 (length (filter (fun r => pir_is_Occupied (pir_state r) = true) present))
                 (length present))
    else None.
Proof.
  unfold location_utilization. destruct (dropna_pir_state _); reflexivity.
Qed.

(** X18. The utilisation figures depend on which readings a series holds, not
    on their order: two series that are rearrangements of each other (such as
    a fetched frame before and after sorting, however ties fall) have the same
    temporal utilisation in both routes. *)
Theorem utilization_order_independent (start_date end_date : Z)
    (start_opt end_opt : option Z) (df df' : DataFrame) :
  df ≡ₚ df' ->
  temporal_utilization start_date end_date df
    = temporal_utilization start_date end_date df' /\
  location_utilization start_opt end_opt df = location_utilization start_opt end_opt df'.
Proof.
  intros Hperm. rewrite !temporal_utilization_by_counts, !location_utilization_by_counts.
  unfold dropna_pir_state. cbv zeta. split.
  - set (present := filter _ (filter _ df)). set (present' := filter _ (filter _ df')).
    assert (Hp : present ≡ₚ present') by (unfold present, present'; now rewrite Hperm).
    rewrite (Permutation_length Hp).
    assert (Ho : filter (fun r => pir_is_Occupied (pir_state r) = true) present
                 ≡ₚ filter (fun r => pir_is_Occupied (pir_state r) = true) present')
      by now rewrite Hp.
    now rewrite (Permutation_length Ho).
  - set (present := filter _ (filter _ (filter _ df))).
    set (present' := filter _ (filter _ (filter _ df'))).
    assert (Hp : present ≡ₚ present') by (unfold present, present'; now rewrite Hperm).
    rewrite (Permutation_length Hp).
    assert (Ho : filter (fun r => pir_is_Occupied (pir_state r) = true) present
                 ≡ₚ filter (fun r => pir_is_Occupied (pir_state r) = true) present')
      by now rewrite Hp.
    now rewrite (Permutation_length Ho).
Qed.

Lemma utilization_order_independent_witness :
  four_readings ≡ₚ reverse four_readings /\
  temporal_utilization 0 10 (reverse four_readings) = temporal_utilization 0 10 four_readings.
Proof.
  assert (Hperm : four_readings ≡ₚ reverse four_readings)
    by (symmetry; apply reverse_Permutation).
  split; [exact Hperm|].
  destruct (utilization_order_independent 0 10 None None four_readings
              (reverse four_readings) Hperm) as [H _].
  symmetry. exact H.
Defined.

(** ** Capacity utilisation *)

Lemma Qsum_pos (l : list Q) :
  l <> [] -> Forall (fun c => (0 < c)%Q) l -> (0 < Qsum l)%Q.
Proof.
  intros Hne Hall. destruct Hall as [|c l Hc Hall]; [congruence|]. clear Hne.
  revert c Hc. induction Hall as [|c' l Hc' Hall IH]; intros c Hc; simpl.
  - now rewrite Qplus_0_r.
  - rewrite <- (Qplus_0_l 0). apply Qplus_lt_le_compat; [exact Hc|].
    apply Qlt_le_weak. now apply IH.
Qed.

Lemma positive_counts (l : DataFrame) :
  (forall r, r ∈ l -> positive_occupancy r = true) ->
  Forall (fun c => (0 < c)%Q) (omap occupancy_count l) /\
  length (omap occupancy_count l) = length l.
Proof.
  induction l as [|r l IH]; intros Hall; [split; [constructor | reflexivity]|].
  assert (Hr : positive_occupancy r = true) by (apply Hall; left).
  destruct IH as [IH1 IH2]; [intros r' Hr'; apply Hall; now right|].
  unfold positive_occupancy in Hr. csimpl.
  destruct (occupancy_count r) as [c|]; [|discriminate]. csimpl.
  split; [constructor; [now apply Qltb_lt | exact IH1] | now rewrite IH2].
Qed.

(** X19. The capacity utilisation is never negative, and it is positive
    exactly when the booth's [max_occupancy] is positive and some in-range
    reading has a positive occupancy count; readings with a missing or zero
    count are left out of the average altogether. *)
Theorem capacity_utilization_positive (max_occ : Q) (filtered_df : DataFrame) :
  (0 <= capacity_utilization max_occ filtered_df)%Q /\
  ((0 < capacity_utilization max_occ filtered_df)%Q <->
   (0 < max_occ)%Q /\ exists r, r ∈ filtered_df /\ positive_occupancy r = true) /\
  capacity_utilization max_occ (filter (fun r => positive_occupancy r = true) filtered_df)
    = capacity_utilization max_occ filtered_df.
Proof.
  assert (Hidem : filter (fun r => positive_occupancy r = true)
                    (filter (fun r => positive_occupancy r = true) filtered_df)
                  = filter (fun r => positive_occupancy r = true) filtered_df).
  { apply filter_all. now intros r [H _]%list_elem_of_filter. }
  unfold capacity_utilization. cbv zeta. rewrite Hidem.
  destruct (filter _ filtered_df) as [|r0 l] eqn:Hf.
  - split; [discriminate|]. split; [|reflexivity]. split; [discriminate|].
    intros [_ (r & Hr & Hpos)].
    assert (Hin : r ∈ filter (fun r => positive_occupancy r = true) filtered_df)
      by now apply list_elem_of_filter.
    rewrite Hf in Hin. inversion Hin.
  - assert (Hex : exists r, r ∈ filtered_df /\ positive_occupancy r = true).
    { exists r0. assert (Hin : r0 ∈ filter (fun r => positive_occupancy r = true) filtered_df)
        by (rewrite Hf; left).
      apply list_elem_of_filter in Hin as [? ?]. now split. }
    destruct (Qltb 0 max_occ) eqn:Hm.
    + apply Qltb_lt in Hm.
      assert (Hall : forall r, r ∈ r0 :: l -> positive_occupancy r = true).
      { intros r Hr. rewrite <- Hf in Hr. now apply list_elem_of_filter in Hr as [? _]. }
      destruct (positive_counts (r0 :: l) Hall) as [Hpos Hlen].
      assert (Hsum : (0 < Qsum (omap occupancy_count (r0 :: l)))%Q).
      { apply Qsum_pos; [|exact Hpos]. intros Hnil. rewrite Hnil in Hlen. discriminate. }
      assert (Hn : (0 < inject_Z (Z.of_nat (length (r0 :: l))))%Q).
      { unfold Qlt. simpl. lia. }
      assert (Hgt : (0 < Qsum (omap occupancy_count (r0 :: l))
                        / inject_Z (Z.of_nat (length (r0 :: l))) / max_occ * 100)%Q).
      { apply Qmult_lt_0_compat; [|reflexivity].
        apply Qlt_shift_div_l; [exact Hm|]. rewrite Qmult_0_l.
        apply Qlt_shift_div_l; [exact Hn|]. now rewrite Qmult_0_l. }
      split; [now apply Qlt_le_weak|]. split; [|reflexivity].
      split; [intros _; split; assumption | intros _; exact Hgt].
    + apply Qltb_ge in Hm. split; [discriminate|]. split; [|reflexivity].
      split; [discriminate|]. intros [Hm' _].
      exfalso. exact (Qlt_irrefl _ (Qlt_le_trans _ _ _ Hm' Hm)).
Qed.

(** ** The latest reading *)

Lemma ts_le_refl a : ts_le a a = true.
Proof. destruct a; simpl; [apply Z.leb_refl | reflexivity]. Qed.

(** X20. The reading the dashboard takes as a booth's latest, the last row of
    the cleaned and sorted series, has the greatest timestamp of the series;
    but undefined timestamps sort last, so as soon as one row of the sheet has
    an unreadable timestamp the "latest" reading is such a row. *)
Theorem latest_reading_of_normalized (L : Lib) (data : list RawRow) (r : Reading) :
  LibOk L ->
  latest (normalize L data) = Some r ->
  (forall r', r' ∈ clean L data -> ascending r' r) /\
  ((exists r', r' ∈ clean L data /\ timestamp r' = None) -> timestamp r = None).
Proof.
  intros HL Hlast. unfold latest in Hlast.
  apply last_Some in Hlast as [l Hl].
  pose proof (sort_values_ascending L HL (clean L data)) as Hsorted.
  pose proof (sort_values_perm L HL (clean L data)) as Hperm.
  fold (normalize L data) in Hsorted, Hperm. rewrite Hl in Hsorted, Hperm.
  assert (Hmax : forall r', r' ∈ clean L data -> ascending r' r).
  { intros r' Hr'. rewrite <- Hperm in Hr'.
    apply elem_of_app in Hr' as [Hr' | Hr'].
    - apply StronglySorted_app in Hsorted as (Hlt & _ & _).
      apply Hlt; [exact Hr' | left].
    - apply list_elem_of_singleton in Hr' as ->. apply ts_le_refl. }
  split; [exact Hmax|].
  intros (r' & Hr' & Hnat). specialize (Hmax r' Hr').
  unfold ascending in Hmax. rewrite Hnat in Hmax.
  destruct (timestamp r); [discriminate | reflexivity].
Qed.

Lemma latest_reading_of_normalized_witness :
  LibOk demo_lib /\
  exists r, latest (normalize demo_lib garbled_rows) = Some r /\ timestamp r = None.
Proof.
  split; [apply demo_lib_ok|].
  destruct (latest (normalize demo_lib garbled_rows)) as [r|] eqn:Hlast;
    [|vm_compute in Hlast; discriminate].
  exists r. split; [reflexivity|].
  destruct (latest_reading_of_normalized demo_lib garbled_rows r demo_lib_ok Hlast)
    as [_ Hnat].
  apply Hnat.
  exists (clean_row demo_lib (<["timestamp" := PStr "n/a"]> (<["temp_c" := PStr "warm"]> ∅))
            None).
  split; [|reflexivity]. right. left.
Defined.

(** ** Sheets without the comfort columns *)

Lemma clean_rows_from_data L data r :
  r ∈ clean L data -> exists raw ts, raw ∈ data /\ r = clean_row L raw ts.
Proof.
  unfold clean. intros (raw & ts & -> & Hraw & _)%elem_of_zip_with. eauto.
Qed.

Lemma missing_column_lookup (data : list RawRow) (col : string) (raw : RawRow) :
  col ∉ columns data -> raw ∈ data -> raw !! col = None.
Proof.
  intros Hcol Hraw. apply not_elem_of_dom. intros Hin. apply Hcol.
  unfold columns. apply elem_of_union_list. exists (dom raw). split; [|exact Hin].
  apply list_elem_of_fmap. eauto.
Qed.

(** X21. A column the sheet lacks is filled with "no value", never with zero:
    when the sheet has none of the five comfort columns, every reading of the
    cleaned series has no value for all five and scores a comfort of 0. *)
Theorem normalize_missing_comfort_columns (L : Lib) (data : list RawRow) (r : Reading) :
  LibOk L ->
  (forall col, col ∈ ["temp_c"; "humidity_pct"; "co2_ppm"; "voc"; "pm25_ugm3"] ->
               col ∉ columns data) ->
  r ∈ normalize L data ->
  temp_c r = None /\ humidity_pct r = None /\ co2_ppm r = None /\ voc r = None /\
  pm25_ugm3 r = None /\ calculate_comfort_score r = 0%Q.
Proof.
  intros HL Hcols Hr. unfold normalize in Hr. rewrite (sort_values_perm L HL) in Hr.
  apply clean_rows_from_data in Hr as (raw & ts & Hraw & ->).
  assert (Hnone : forall col,
             col ∈ ["temp_c"; "humidity_pct"; "co2_ppm"; "voc"; "pm25_ugm3"] ->
             raw !! col = None).
  { intros col Hcol. eapply missing_column_lookup; [apply Hcols, Hcol | exact Hraw]. }
  unfold calculate_comfort_score, scores. simpl.
  rewrite !Hnone by set_solver. simpl. repeat split.
Qed.

Lemma normalize_missing_comfort_columns_witness :
  LibOk demo_lib /\
  Forall (fun r => calculate_comfort_score r = 0%Q)
    (normalize demo_lib [ {[ "timestamp" := PInt 7 ]}; {[ "timestamp" := PInt 3 ]} ]).
Proof.
  split; [apply demo_lib_ok|].
  apply Forall_forall. intros r Hr.
  apply (normalize_missing_comfort_columns demo_lib
           [ {[ "timestamp" := PInt 7 ]}; {[ "timestamp" := PInt 3 ]} ] r demo_lib_ok);
    [|exact Hr].
  intros col Hcol. vm_compute. intros Hin.
  repeat (apply elem_of_cons in Hcol as [-> | Hcol]; [vm_compute in Hin; set_solver|]).
  inversion Hcol.
Defined.

(** ** The refresher over several rounds *)

(** One sweep returns whatever happens inside it. *)
Lemma refresh_all_booths_loads L sp df_clients w :
  exists w',
    refresh_all_booths L sp df_clients w = (Ok tt, w') /\
    loads w' = loads w ++ attempted df_clients.
Proof.
  unfold refresh_all_booths.
  destruct (sweep_body_loads L sp df_clients (snd (logger InfoRefreshing w)))
    as (r & w1 & Hrun & Hl & Hr).
  set (loop := for_each df_clients _) in *.
  unfold bind, try_except. change (logger InfoRefreshing w) with
    (Ok tt, snd (logger InfoRefreshing w)). cbv beta iota. rewrite Hrun.
  destruct r as [[]|e]; eexists; (split; [reflexivity|]); simpl; rewrite Hl; reflexivity.
Qed.

Lemma time_sleep_run d w : exists w1,
  time_sleep d w = (Ok tt, w1) /\ loads w1 = loads w /\ sleeps w1 = sleeps w ++ [d].
Proof. eexists. split; [reflexivity|]. split; reflexivity. Qed.

(** X22. The refresher outlives a failing sweep: however many rounds it runs,
    and whatever raises inside a sweep, it never raises itself, and every
    round starts over from the top of the roster, attempting again the pairs
    up to and including the first whose load raises. *)
Theorem background_cache_refresh_rounds (L : Lib) (sp : option Spreadsheet)
    (df_clients : list ClientRow) (n : nat) (w : World) :
  exists w',
    background_cache_refresh L sp df_clients n w = (Ok tt, w') /\
    loads w' = loads w ++ mjoin (replicate n (attempted df_clients)).
Proof.
  revert w. induction n as [|n IH]; intros w.
  - exists w. simpl. rewrite app_nil_r. split; reflexivity.
  - simpl background_cache_refresh.
    destruct (time_sleep_run 120 w) as (w1 & Hs & Hl1 & _).
    destruct (refresh_all_booths_loads L sp df_clients w1) as (w2 & Hr & Hl2).
    destruct (IH w2) as (w' & Hrec & Hl').
    exists w'. split.
    + unfold bind at 1. rewrite Hs. unfold bind at 1. rewrite Hr. exact Hrec.
    + rewrite Hl', Hl2, Hl1. simpl. now rewrite <- !app_assoc.
Qed.

(** ** Alerts against the comfort score *)

Lemma score_co2_high c : Qltb 1000 c = true -> score_co2 c <= 25.
Proof.
  intros H%Qltb_lt. unfold score_co2, Qleb.
  destruct (Qle_bool c 600) eqn:H6.
  { apply Qle_bool_iff in H6. exfalso.
    apply (Qlt_irrefl c). eapply Qle_lt_trans; [exact H6|].
    eapply Qlt_trans; [|exact H]. reflexivity. }
  destruct (Qle_bool c 1000) eqn:H10.
  { apply Qle_bool_iff in H10. exfalso.
    apply (Qlt_irrefl c). eapply Qle_lt_trans; eassumption. }
  destruct (Qle_bool c 2000); lia.
Qed.

Lemma score_temp_high t : Qltb 25 t = true -> score_temp t <= 50.
Proof.
  intros H%Qltb_lt. unfold score_temp, Qleb.
  destruct (Qle_bool t 25) eqn:H25.
  { apply Qle_bool_iff in H25. exfalso.
    apply (Qlt_irrefl t). eapply Qle_lt_trans; eassumption. }
  rewrite andb_false_r. destruct (_ || _); lia.
Qed.

Lemma score_le_100 s : s ∈ [0; 25; 50; 75; 100] -> s <= 100.
Proof.
  rewrite !elem_of_cons, elem_of_nil.
  intros [-> | [-> | [-> | [-> | [-> | []]]]]]; lia.
Qed.

(** X23. The dashboard's alerts and the comfort score agree in direction: a
    latest reading that raises an alert (CO2 above 1000 ppm or temperature
    above 25 C) never has a perfect comfort score. *)
Theorem alert_means_discomfort (loc booth : string) (latest_row : Reading) :
  active_alerts loc booth latest_row <> [] ->
  (calculate_comfort_score latest_row < 100)%Q.
Proof.
  intros Halert.
  assert (Hbad : (exists c, co2_ppm latest_row = Some c /\ score_co2 c <= 25) \/
                 (exists t, temp_c latest_row = Some t /\ score_temp t <= 50)).
  { unfold active_alerts in Halert.
    destruct (co2_ppm latest_row) as [c|].
    - destruct (Qltb 1000 c) eqn:Hc; [left; eauto using score_co2_high|].
      destruct (temp_c latest_row) as [t|]; [|simpl in Halert; congruence].
      destruct (Qltb 25 t) eqn:Ht;
        [right; eauto using score_temp_high | simpl in Halert; congruence].
    - destruct (temp_c latest_row) as [t|]; [|simpl in Halert; congruence].
      destruct (Qltb 25 t) eqn:Ht;
        [right; eauto using score_temp_high | simpl in Halert; congruence]. }
  unfold calculate_comfort_score, scores.
  destruct (temp_c latest_row) as [t|], (humidity_pct latest_row) as [h|],
           (co2_ppm latest_row) as [c|], (voc latest_row) as [v|],
           (pm25_ugm3 latest_row) as [p|];
    csimpl;
    try pose proof (score_le_100 _ (score_temp_values t));
    try pose proof (score_le_100 _ (score_hum_values h));
    try pose proof (score_le_100 _ (score_co2_values c));
    try pose proof (score_le_100 _ (score_voc_values v));
    try pose proof (score_le_100 _ (score_pm25_values p));
    destruct Hbad as [(c' & Hc & Hle) | (t' & Ht & Hle)];
    simplify_eq;
    unfold sum_Z, Qlt, Qdiv, Qmult, Qinv; simpl; lia.
Qed.

Lemma alert_means_discomfort_witness :
  (calculate_comfort_score co2_only_reading < 100)%Q.
Proof.
  apply (alert_means_discomfort "Adelaide" "Booth A" co2_only_reading). discriminate.
Defined.

(** ** The dummy frame *)

Lemma dummy_rows_ascending L k end_ a n :
  StronglySorted ascending (dummy_row L k end_ <$> seq a n).
Proof.
  revert a. induction n as [|n IH]; intros a; [constructor|].
  csimpl. constructor; [apply IH|].
  apply Forall_fmap, Forall_seq. intros i Hi.
  unfold ascending. simpl. apply Z.leb_le.
  change hour_ns with 3600000000000. lia.
Qed.

(** X24. The frame [create_dummy_data] returns has the shape of a cleaned
    series: 24 rows, timestamps ascending hour by hour up to the present local
    time, every sensor field holding a value and every pir_state being
    "Occupied" or "Vacant"; generating it touches neither the cache nor the
    provider. *)
Theorem create_dummy_data_shape (L : Lib) (w : World) :
  exists df w',
    create_dummy_data L w = (Ok df, w') /\
    length df = 24%nat /\
    StronglySorted ascending df /\
    (exists r, latest df = Some r /\ timestamp r = Some (datetime_now L (now w))) /\
    Forall (fun r =>
      (exists t, timestamp r = Some t /\
                 datetime_now L (now w) - 23 * hour_ns <= t <= datetime_now L (now w)) /\
      (pir_state r = Some (PStr "Occupied") \/ pir_state r = Some (PStr "Vacant")) /\
      length (scores r) = 5%nat) df /\
    cache w' = cache w /\ requests w' = requests w.
Proof.
  eexists _, _. split; [reflexivity|]. split; [reflexivity|].
  split; [apply dummy_rows_ascending|].
  split; [|split; [|split; reflexivity]].
  - eexists. split; [reflexivity|]. simpl. f_equal.
    change hour_ns with 3600000000000. lia.
  - apply Forall_fmap, Forall_seq. intros i Hi. simpl. split; [|split].
    + eexists. split; [reflexivity|]. change hour_ns with 3600000000000. lia.
    + destruct (random_choice L _ _); auto.
    + reflexivity.
Qed.

(** ** Who may open a booth *)

(** X25. The security check of the booth and analytics pages lets a client in
    exactly when some roster row carries the client's name, the location and
    the booth asked for; a session whose role is anything but "client" is
    never refused, and a client whose client_name is blank (NaN) is refused
    every booth. *)
Theorem booth_access_rule (df_clients : list ClientRow) (role client : PyVal)
    (loc_name booth_name : string) :
  (py_eq role (PStr "client") = false ->
   booth_access df_clients role client loc_name booth_name = true) /\
  (booth_access df_clients (PStr "client") client loc_name booth_name = true <->
   exists row, row ∈ df_clients /\
               py_eq (client_name row) client = true /\
               location row = PStr loc_name /\
               booth row = PStr booth_name) /\
  booth_access df_clients (PStr "client") PNaN loc_name booth_name = false.
Proof.
  assert (Hstr : forall v s, py_eq v (PStr s) = true <-> v = PStr s).
  { intros v s. destruct v; simpl; try (split; [discriminate | congruence]).
    rewrite String.eqb_eq. split; congruence. }
  assert (Hstr' : forall v s, py_eq (PStr s) v = true <-> v = PStr s).
  { intros v s. destruct v; simpl; try (split; [discriminate | congruence]).
    rewrite String.eqb_eq. split; congruence. }
  split; [|split].
  - intros Hrole. unfold booth_access. now rewrite Hrole.
  - unfold booth_access. simpl. rewrite existsb_exists. split.
    + intros (b & Hb & Heq). apply Hstr' in Heq as ->.
      apply in_map_iff in Hb as (row & Hbooth & Hrow).
      apply list_elem_of_In, list_elem_of_filter in Hrow as [Hf Hin].
      apply andb_true_iff in Hf as [Hc Hl]. apply Hstr in Hl.
      exists row. repeat split; assumption.
    + intros (row & Hin & Hc & Hl & Hb). exists (booth row). split.
      * apply in_map_iff. exists row. split; [reflexivity|].
        apply list_elem_of_In, list_elem_of_filter. split; [|exact Hin].
        rewrite Hc, Hl. simpl. now rewrite String.eqb_refl.
      * rewrite Hb. simpl. apply String.eqb_refl.
  - unfold booth_access. simpl.
    rewrite filter_none; [reflexivity|].
    intros row _ H. apply andb_true_iff in H as [H _]. destruct (client_name row); discriminate.
Qed.

Lemma booth_access_rule_witness :
  py_eq (PStr "admin") (PStr "client") = false /\
  booth_access roster_of_names (PStr "admin") PNaN "Perth" "Booth Z" = true.
Proof.
  split; [reflexivity|].
  destruct (booth_access_rule roster_of_names (PStr "admin") PNaN "Perth" "Booth Z")
    as [Hadmin _].
  exact (Hadmin eq_refl).
Defined.
